(** * The SIL-Kit CAN bridge (bridge/bridge.py): frame model, wire formats,
      connection handler and bus fan-out.

    Integers are [Z]; a byte is a [Z] in [0, 255].  The asyncio stream
    reader, the JSON parser and the SIL-Kit transport are libraries outside
    the bridge: the reader is modelled by its documented [read(n)]
    behaviour, the parser and the transport's status are section
    variables. *)

From stdpp Require Import gmap strings list numbers.

Local Open Scope Z_scope.

(** ** Frame model (ctypes structures) *)

(** [SilKit_ByteVector]: a pointer (NULL is [None]) and a size field.  The
    pointed-to buffer is a list; [ptr[i]] past its end reads as 0 here. *)
Record SilKit_ByteVector := {
  bv_data : option (list Z);
  bv_size : Z
}.

(** [CanFrame].  The struct header carries only the version word. *)
Record CanFrame := {
  version : Z;
  id : Z;
  flags : Z;
  dlc : Z;
  sdt : Z;
  vcid : Z;
  af : Z;
  data : SilKit_ByteVector
}.

(** [(83 << 56) | (75 << 48) | (1 << 40) | (1 << 32) | (1 << 24)] *)
Definition frame_version : Z :=
  Z.lor
    (Z.lor (Z.lor (Z.lor (Z.shiftl 83 56) (Z.shiftl 75 48)) (Z.shiftl 1 40))
       (Z.shiftl 1 32))
    (Z.shiftl 1 24).

Definition is_byte (b : Z) : Prop := 0 <= b <= 255.

(** What the ctypes field types guarantee for a frame handed over by the
    transport: [id], [flags], [af] are [c_uint32], [dlc] is [c_uint8], the
    size is [c_uint64], the buffer holds [c_uint8] values. *)
Record frame_in_range (f : CanFrame) : Prop := {
  id_range : 0 <= id f < 2 ^ 32;
  dlc_range : 0 <= dlc f <= 255;
  size_range : 0 <= bv_size (data f) < 2 ^ 64;
  data_range : forall buf, bv_data (data f) = Some buf -> Forall is_byte buf
}.

(** [SilKitBridge.get_dlc_size] *)
Definition get_dlc_size (dlc : Z) : Z :=
  if dlc <=? 8 then dlc
  else if dlc =? 9 then 12
  else if dlc =? 10 then 16
  else if dlc =? 11 then 20
  else if dlc =? 12 then 24
  else if dlc =? 13 then 32
  else if dlc =? 14 then 48
  else if dlc =? 15 then 64
  else 0.

(** Reports: the [print] calls of [handle_client] and [handle_can_message]. *)
Inductive exn :=
  | KeyError | TypeError | ValueError | StructError | DecodeError
  | OverflowError.

Inductive report :=
  | NewConnection
  | IncompleteHeader
  | IncompleteData
  | ReceivedRaw (can_id data_len : Z)
  | ForwardingRaw (can_id data_len : Z)
  | SendFailedRaw (err : Z)
  | SendOkRaw (can_id data_len : Z)
  | ReceivedJson (can_id : Z)
  | Converting (can_id : Z) (raw : list Z)
  | TruncationWarning
  | Sending (can_id data_len : Z)
  | SendFailed (err : Z)
  | SendOk (can_id data_len : Z)
  | HandlerError (e : exn)
  | ConnectionClosed
  | HandlingBusFrame (can_id dlc data_size : Z)
  | BusFrameData (data_array : list Z)
  | ThermalDebug (raw_frame : list Z)
  | WriteError
  | SentToClients (client_count : Z)
  | ProcessError.

(** The DLC selection of the JSON branch of [handle_client] (lines
    296-319), as a function of [data_len]: the value stored in
    [frame.dlc], and whether the inner [if data_len > 64] fired. *)
Definition set_dlc (data_len : Z) : Z * bool :=
  if data_len <=? 8 then (data_len, false)
  else
    if data_len <=? 12 then (9, false)
    else if data_len <=? 16 then (10, false)
    else if data_len <=? 20 then (11, false)
    else if data_len <=? 24 then (12, false)
    else if data_len <=? 32 then (13, false)
    else if data_len <=? 48 then (14, false)
    else (15, data_len >? 64).

Definition encode_length (data_len : Z) : Z := fst (set_dlc data_len).

(** The payload sizes a DLC can stand for. *)
Definition buckets : list Z :=
  [0; 1; 2; 3; 4; 5; 6; 7; 8; 12; 16; 20; 24; 32; 48; 64].

(** ** Exceptions *)

(** A computation that returns a value or raises. *)
Inductive result (A : Type) :=
  | Ok (a : A)
  | Raise (e : exn).
Arguments Ok {A} a.
Arguments Raise {A} e.

#[export] Instance result_ret : MRet result := fun A a => Ok a.
#[export] Instance result_bind : MBind result := fun A B f m =>
  match m with
  | Ok a => f a
  | Raise e => Raise e
  end.

(** ** Parsed JSON values, and the Python operations the handler applies *)

#[warnings="-register-all"]
Inductive json :=
  | JNull
  | JBool (b : bool)
  | JInt (n : Z)
  | JFloat (repr : string)
  | JStr (s : string)
  | JList (l : list json)
  | JDict (kv : gmap string json).

(** [msg[key]] *)
Definition getitem (msg : json) (key : string) : result json :=
  match msg with
  | JDict kv =>
      match kv !! key with
      | Some v => Ok v
      | None => Raise KeyError
      end
  | _ => Raise TypeError
  end.

(** [msg.get(key, default)], reached only once [msg['type']] succeeded *)
Definition dict_get (msg : json) (key : string) (default : json) : json :=
  match msg with
  | JDict kv => from_option (fun v => v) default (kv !! key)
  | _ => default
  end.

(** [ty == 'can'] *)
Definition is_can (ty : json) : bool :=
  match ty with
  | JStr s => String.eqb s "can"
  | _ => false
  end.

Definition Z_of_bool (b : bool) : Z := if b then 1 else 0.

(** [f"{v:x}"]: integers (and booleans, which are integers) format;
    returns the integer formatted. *)
Definition format_x (v : json) : result Z :=
  match v with
  | JInt n => Ok n
  | JBool b => Ok (Z_of_bool b)
  | JFloat _ | JStr _ => Raise ValueError
  | JNull | JList _ | JDict _ => Raise TypeError
  end.

(** One element of the iterable given to [bytes(...)] *)
Definition byte_of_item (v : json) : result Z :=
  match v with
  | JInt n => if (0 <=? n) && (n <=? 255) then Ok n else Raise ValueError
  | JBool b => Ok (Z_of_bool b)
  | _ => Raise TypeError
  end.

(** The largest count [bytes(n)] accepts: [sys.maxsize] *)
Definition sys_maxsize : Z := 2 ^ 63 - 1.

(** [bytes(v)]: an iterable of integers in 0..255, or an integer count of
    zero bytes; a negative count raises [ValueError], a count above
    [sys.maxsize] raises [OverflowError] (below it the allocation is taken
    to succeed). *)
Definition to_bytes (v : json) : result (list Z) :=
  match v with
  | JList l => mapM byte_of_item l
  | JInt n =>
      if n <? 0 then Raise ValueError
      else if n >? sys_maxsize then Raise OverflowError
      else Ok (replicate (Z.to_nat n) 0)
  | JBool b => Ok (replicate (Z.to_nat (Z_of_bool b)) 0)
  | JDict kv => if decide (kv = ∅) then Ok [] else Raise TypeError
  | JNull | JFloat _ | JStr _ => Raise TypeError
  end.

(** ** struct.pack / struct.unpack *)

(** [struct.pack('!B', v)]; [None] is [struct.error] *)
Definition pack_B (v : Z) : option (list Z) :=
  if (0 <=? v) && (v <=? 255) then Some [v] else None.

(** Four bytes, network byte order *)
Definition be32 (v : Z) : list Z :=
  [Z.land (Z.shiftr v 24) 255; Z.land (Z.shiftr v 16) 255;
   Z.land (Z.shiftr v 8) 255; Z.land v 255].

(** [struct.pack('!I', v)] *)
Definition pack_I (v : Z) : option (list Z) :=
  if (0 <=? v) && (v <? 2 ^ 32) then Some (be32 v) else None.

(** The compact wire format: [4 bytes id][1 byte length][payload] *)
Definition compact_frame (can_id : Z) (payload : list Z) : list Z :=
  be32 can_id ++ [Z.of_nat (length payload)] ++ payload.

(** [struct.unpack('!I', bs)[0]] *)
Definition unpack_I (bs : list Z) : result Z :=
  match bs with
  | [b0; b1; b2; b3] =>
      Ok (Z.lor
            (Z.lor (Z.lor (Z.shiftl b0 24) (Z.shiftl b1 16)) (Z.shiftl b2 8))
            b3)
  | _ => Raise StructError
  end.

(** ** asyncio streams *)

(** [StreamReader]: the bytes received and not yet read, and whether EOF
    was fed. *)
Record StreamReader := {
  r_buffer : list Z;
  r_eof : bool
}.

Inductive read_result :=
  | Pending
  | Ready (got : list Z) (r : StreamReader).

(** [await reader.read(n)] for [n >= 0]: [b''] at once when [n = 0];
    suspends while the buffer is empty and EOF was not fed; otherwise
    returns at most [n] of the buffered bytes ([b''] at EOF). *)
Definition read (n : Z) (r : StreamReader) : read_result :=
  if n =? 0 then Ready [] r
  else
    match r_buffer r with
    | [] => if r_eof r then Ready [] r else Pending
    | buf => Ready (take (Z.to_nat n) buf)
               {| r_buffer := drop (Z.to_nat n) buf; r_eof := r_eof r |}
    end.

Definition feed_data (chunk : list Z) (r : StreamReader) : StreamReader :=
  {| r_buffer := r_buffer r ++ chunk; r_eof := r_eof r |}.

Definition feed_eof (r : StreamReader) : StreamReader :=
  {| r_buffer := r_buffer r; r_eof := true |}.

(** [StreamWriter]: the peer host of [get_extra_info('peername')], the
    bytes written so far, whether [write] raises, whether [close] was
    called. *)
Record StreamWriter := {
  w_peer : option string;
  w_out : list Z;
  w_broken : bool;
  w_closed : bool
}.

Definition writer_write (raw : list Z) (w : StreamWriter) : StreamWriter :=
  {| w_peer := w_peer w; w_out := w_out w ++ raw;
     w_broken := w_broken w; w_closed := w_closed w |}.

Definition writer_close (w : StreamWriter) : StreamWriter :=
  {| w_peer := w_peer w; w_out := w_out w;
     w_broken := w_broken w; w_closed := true |}.

(** [host.startswith('192.0.2.')] *)
Definition thermal_host (host : string) : bool := String.prefix "192.0.2." host.

(** ** The bridge object *)

(** [self.clients] holds writer handles; [writers] is the store of the
    writer objects behind the handles; [sent] lists the frames given to
    [SilKit_CanController_SendFrame]; [log] is standard output. *)
Record bridge := {
  clients : gset nat;
  writers : gmap nat StreamWriter;
  data_buffers : list (list Z);
  sent : list CanFrame;
  log : list report
}.

Definition print (r : report) (st : bridge) : bridge :=
  {| clients := clients st; writers := writers st;
     data_buffers := data_buffers st; sent := sent st;
     log := log st ++ [r] |}.

Definition set_clients (cs : gset nat) (st : bridge) : bridge :=
  {| clients := cs; writers := writers st;
     data_buffers := data_buffers st; sent := sent st; log := log st |}.

Definition set_writers (ws : gmap nat StreamWriter) (st : bridge) : bridge :=
  {| clients := clients st; writers := ws;
     data_buffers := data_buffers st; sent := sent st; log := log st |}.

Definition set_data_buffers (bs : list (list Z)) (st : bridge) : bridge :=
  {| clients := clients st; writers := writers st;
     data_buffers := bs; sent := sent st; log := log st |}.

(** [self.data_buffers.append(b)], then [pop(0)] above 10 entries *)
Definition keep_buffer (b : list Z) (st : bridge) : bridge :=
  let bs := data_buffers st ++ [b] in
  set_data_buffers (if (10 <? length bs)%nat then drop 1 bs else bs) st.

(** ** Connection handler and bus fan-out *)

(** Where the coroutine [handle_client] stands: at the top of its loop, or
    suspended in the second [read] of an iteration with the first read's
    result in hand, or finished (the [finally] block has run). *)
Inductive pc :=
  | LoopTop
  | AwaitData (header : list Z)
  | AwaitMessage (msg_length : Z)
  | Finished.

Record connection := {
  c_writer : nat;
  is_thermal : bool;
  reader : StreamReader;
  c_pc : pc
}.

Definition at_pc (p : pc) (r : StreamReader) (c : connection) : connection :=
  {| c_writer := c_writer c; is_thermal := is_thermal c;
     reader := r; c_pc := p |}.

Definition deliver (chunk : list Z) (c : connection) : connection :=
  at_pc (c_pc c) (feed_data chunk (reader c)) c.

Definition deliver_eof (c : connection) : connection :=
  at_pc (c_pc c) (feed_eof (reader c)) c.

Section Bridge.

(** The transport's [SilKit_CanController_SendFrame]: its status for a
    frame, given the frames sent before.  [json_loads] stands for
    [json.loads(msg_bytes.decode())]; [None] when either raises. *)
Context (SilKit_CanController_SendFrame : list CanFrame -> CanFrame -> Z).
Context (json_loads : list Z -> option json).

Definition send_frame (frame : CanFrame) (st : bridge) : Z * bridge :=
  (SilKit_CanController_SendFrame (sent st) frame,
   {| clients := clients st; writers := writers st;
      data_buffers := data_buffers st; sent := sent st ++ [frame];
      log := log st |}).

(** The first lines of [handle_client], up to the [try].  A writer
    without peer name makes [addr[0]] raise after the registration. *)
Definition accept (w : nat) (st : bridge) : bridge * option connection :=
  let addr := writers st !! w ≫= w_peer in
  let st := print NewConnection st in
  let st := set_clients ({[w]} ∪ clients st) st in
  match addr with
  | None => (st, None)
  | Some host =>
      (set_data_buffers [] st,
       Some {| c_writer := w; is_thermal := thermal_host host;
               reader := {| r_buffer := []; r_eof := false |};
               c_pc := LoopTop |})
  end.

(** The [finally] block *)
Definition finally (r : StreamReader) (c : connection) (st : bridge)
  : connection * bridge :=
  let st := set_writers (alter writer_close (c_writer c) (writers st)) st in
  let st := set_clients (clients st ∖ {[c_writer c]}) st in
  (at_pc Finished r c, print ConnectionClosed st).

(** [except Exception as e], then [finally] *)
Definition raised (e : exn) (r : StreamReader) (c : connection) (st : bridge)
  : connection * bridge :=
  finally r c (print (HandlerError e) st).

(** The [CanFrame] filled in by the thermal branch (lines 222-241): zeroed,
    then version, id, flags, dlc, data pointer and size. *)
Definition raw_CanFrame (can_id data_len : Z) (data_array : list Z) : CanFrame :=
  {| version := frame_version; id := can_id; flags := 0; dlc := data_len;
     sdt := 0; vcid := 0; af := 0;
     data := {| bv_data := Some data_array; bv_size := data_len |} |}.

(** The [CanFrame] filled in by the JSON branch (lines 277-331) *)
Definition json_CanFrame (frame_id frame_dlc : Z) (original_data : list Z)
    (data_len : Z) : CanFrame :=
  {| version := frame_version; id := frame_id; flags := 0; dlc := frame_dlc;
     sdt := 0; vcid := 0; af := 0;
     data := {| bv_data := Some original_data; bv_size := data_len |} |}.

(** [(h0 << 24) | (h1 << 16) | (h2 << 8) | h3] *)
Definition can_id_of (header : list Z) : Z :=
  Z.lor
    (Z.lor (Z.lor (Z.shiftl (nth 0 header 0) 24) (Z.shiftl (nth 1 header 0) 16))
       (Z.shiftl (nth 2 header 0) 8))
    (nth 3 header 0).

(** Thermal branch, lines 204-254: a complete header and payload *)
Definition forward_raw (header data_bytes : list Z) (st : bridge) : bridge :=
  let can_id := can_id_of header in
  let data_len := nth 4 header 0 in
  let st := print (ReceivedRaw can_id data_len) st in
  let data_array := data_bytes in
  let frame := raw_CanFrame can_id data_len data_array in
  let st := keep_buffer data_array st in
  let st := print (ForwardingRaw can_id data_len) st in
  let '(err, st) := send_frame frame st in
  if err =? 0 then print (SendOkRaw can_id data_len) st
  else print (SendFailedRaw err) st.

(** JSON branch, lines 270-344: a parsed message.  Returns the exception
    that ended it, if any. *)
Definition forward_json (msg : json) (st : bridge) : bridge * option exn :=
  match getitem msg "type" with
  | Raise e => (st, Some e)
  | Ok ty =>
      if is_can ty then
        match getitem msg "id" ≫= format_x with
        | Raise e => (st, Some e)
        | Ok msg_id =>
            let st := print (ReceivedJson msg_id) st in
            let frame_id := msg_id `mod` 2 ^ 32 in
            match to_bytes (dict_get msg "data" (JList [])) with
            | Raise e => (st, Some e)
            | Ok original_data =>
                let data_len := Z.of_nat (length original_data) in
                let st := print (Converting frame_id original_data) st in
                let '(frame_dlc, too_long) := set_dlc data_len in
                let st := if too_long then print TruncationWarning st else st in
                let original_data :=
                  if too_long then take 64 original_data else original_data in
                let data_len := if too_long then 64 else data_len in
                let frame :=
                  json_CanFrame frame_id frame_dlc original_data data_len in
                let st := keep_buffer original_data st in
                let st := print (Sending frame_id data_len) st in
                let '(err, st) := send_frame frame st in
                (if err =? 0 then print (SendOk frame_id data_len) st
                 else print (SendFailed err) st, None)
            end
        end
      else (st, None)
  end.

(** One stretch of [handle_client] between two reads.  [None]: the
    coroutine is suspended in a [read], or has finished. *)
Definition step (c : connection) (st : bridge) : option (connection * bridge) :=
  match c_pc c with
  | Finished => None
  | LoopTop =>
      if is_thermal c then
        match read 5 (reader c) with
        | Pending => None
        | Ready header r =>
            if bool_decide (header = []) || (length header <? 5)%nat
            then Some (finally r c (print IncompleteHeader st))
            else Some (at_pc (AwaitData header) r c, st)
        end
      else
        match read 4 (reader c) with
        | Pending => None
        | Ready length_bytes r =>
            if bool_decide (length_bytes = []) then Some (finally r c st)
            else
              match unpack_I length_bytes with
              | Raise e => Some (raised e r c st)
              | Ok msg_length => Some (at_pc (AwaitMessage msg_length) r c, st)
              end
        end
  | AwaitData header =>
      let data_len := nth 4 header 0 in
      match read data_len (reader c) with
      | Pending => None
      | Ready data_bytes r =>
          if bool_decide (data_bytes = [])
             || (Z.of_nat (length data_bytes) <? data_len)
          then Some (finally r c (print IncompleteData st))
          else Some (at_pc LoopTop r c, forward_raw header data_bytes st)
      end
  | AwaitMessage msg_length =>
      match read msg_length (reader c) with
      | Pending => None
      | Ready msg_bytes r =>
          if bool_decide (msg_bytes = []) then Some (finally r c st)
          else
            match json_loads msg_bytes with
            | None => Some (raised DecodeError r c st)
            | Some msg =>
                match forward_json msg st with
                | (st, Some e) => Some (raised e r c st)
                | (st, None) => Some (at_pc LoopTop r c, st)
                end
            end
      end
  end.

(** The coroutine runs until it suspends or finishes. *)
Fixpoint run (fuel : nat) (c : connection) (st : bridge) : connection * bridge :=
  match fuel with
  | O => (c, st)
  | S fuel =>
      match step c st with
      | None => (c, st)
      | Some (c, st) => run fuel c st
      end
  end.

(** Fuel that always suffices: every two steps read a byte or finish. *)
Definition enough (c : connection) : nat :=
  3 + 2 * length (r_buffer (reader c)).

(** The event loop feeds a chunk (or EOF) and resumes the coroutine. *)
Definition on_data (chunk : list Z) (c : connection) (st : bridge)
  : connection * bridge :=
  let c := deliver chunk c in run (enough c) c st.

Definition on_eof (c : connection) (st : bridge) : connection * bridge :=
  let c := deliver_eof c in run (enough c) c st.

(** [handle_can_message]: the size and bytes taken from the bus frame *)
Definition data_size_of (frame : CanFrame) : Z :=
  match bv_data (data frame) with
  | Some _ => Z.min (get_dlc_size (dlc frame)) (bv_size (data frame))
  | None => 0
  end.

Definition data_array_of (frame : CanFrame) : list Z :=
  match bv_data (data frame) with
  | Some buf =>
      if data_size_of frame >? 0
      then (fun i => nth i buf 0) <$> seq 0 (Z.to_nat (data_size_of frame))
      else []
  | None => []
  end.

(** [raw_frame]: id, length byte, data bytes; [None] is [struct.error] *)
Definition raw_frame_of (frame : CanFrame) : option (list Z) :=
  id_bytes ← pack_I (id frame);
  len_byte ← pack_B (data_size_of frame);
  payload ← mapM pack_B (data_array_of frame);
  Some (id_bytes ++ len_byte ++ concat payload).

(** The body of [for writer in self.clients] *)
Definition send_to_client (raw_frame : list Z) (acc : bridge * Z) (w : nat)
  : bridge * Z :=
  let '(st, client_count) := acc in
  match writers st !! w with
  | None => (st, client_count)
  | Some writer =>
      let peer_thermal :=
        match w_peer writer with
        | Some host => thermal_host host
        | None => false
        end in
      let st := if peer_thermal then print (ThermalDebug raw_frame) st else st in
      if w_broken writer then (print WriteError st, client_count)
      else (set_writers (<[w := writer_write raw_frame writer]> (writers st)) st,
            client_count + 1)
  end.

Definition handle_can_message (frame : CanFrame) (st : bridge) : bridge :=
  let data_size := data_size_of frame in
  let st := print (HandlingBusFrame (id frame) (dlc frame) data_size) st in
  let data_array := data_array_of frame in
  let st :=
    match bv_data (data frame) with
    | Some _ => if data_size >? 0 then print (BusFrameData data_array) st else st
    | None => st
    end in
  match raw_frame_of frame with
  | None => print ProcessError st
  | Some raw_frame =>
      let '(st, client_count) :=
        foldl (send_to_client raw_frame) (st, 0) (elements (clients st)) in
      print (SentToClients client_count) st
  end.

End Bridge.

(** What one pass of the fan-out loop leaves in a writer object *)
Definition delivered (raw_frame : list Z) (writer : StreamWriter) : StreamWriter :=
  if w_broken writer then writer else writer_write raw_frame writer.

(** The frame the JSON branch ends up sending for an integer id and a
    byte list (lines 284-331 without the prints). *)
Definition json_frame (msg_id : Z) (original_data : list Z) : CanFrame :=
  let data_len := Z.of_nat (length original_data) in
  let '(frame_dlc, too_long) := set_dlc data_len in
  json_CanFrame (msg_id `mod` 2 ^ 32) frame_dlc
    (if too_long then take 64 original_data else original_data)
    (if too_long then 64 else data_len).

(** A bound on the steps left: two per buffered byte, plus what the
    current position still needs. *)
Definition steps_left (c : connection) : nat :=
  2 * length (r_buffer (reader c)) +
  match c_pc c with
  | LoopTop => 2
  | AwaitData _ | AwaitMessage _ => 1
  | Finished => 0
  end.

(** ** Sample values *)

(** A sample registry: writer 0 is a thermal peer, writer 1 is not, writer 2
    is a peer whose [write] raises. *)
Definition sample_writers : gmap nat StreamWriter :=
  {[ 0%nat := {| w_peer := Some "192.0.2.20"; w_out := [];
                 w_broken := false; w_closed := false |};
     1%nat := {| w_peer := Some "127.0.0.1"; w_out := [];
                 w_broken := false; w_closed := false |};
     2%nat := {| w_peer := Some "127.0.0.1"; w_out := [];
                 w_broken := true; w_closed := false |} ]}.

Definition sample_bridge : bridge :=
  {| clients := ∅; writers := sample_writers; data_buffers := [];
     sent := []; log := [] |}.

(** The thermal peer (writer 0) connected, nothing received yet. *)
Definition thermal_connection : connection :=
  {| c_writer := 0; is_thermal := true;
     reader := {| r_buffer := []; r_eof := false |}; c_pc := LoopTop |}.

Definition bus_ok : list CanFrame -> CanFrame -> Z := fun _ _ => 0.
Definition bus_failing : list CanFrame -> CanFrame -> Z := fun _ _ => 1.
Definition no_json : list Z -> option json := fun _ => None.

(** A bus frame id=0x999, payload [1, 2, 3], and one whose dlc (2) is
    smaller than its 3-byte buffer. *)
Definition frame_999 : CanFrame := raw_CanFrame 0x999 3 [1; 2; 3].

Definition frame_short_dlc : CanFrame :=
  {| version := frame_version; id := 0x321; flags := 0; dlc := 2;
     sdt := 0; vcid := 0; af := 0;
     data := {| bv_data := Some [7; 8; 9]; bv_size := 3 |} |}.

(** All three sample writers registered. *)
Definition fanout_bridge : bridge :=
  {| clients := {[0%nat; 1%nat; 2%nat]}; writers := sample_writers;
     data_buffers := []; sent := []; log := [] |}.

(** A JSON frame message [{"type": "can", "id": msg_id, "data": entries}],
    and a message of another type. *)
Definition can_message (msg_id : Z) (entries : list Z) : json :=
  JDict {[ "type" := JStr "can"; "id" := JInt msg_id;
           "data" := JList (JInt <$> entries) ]}.

Definition status_message : json :=
  JDict {[ "type" := JStr "status"; "id" := JInt 1 ]}.

(** A JSON connection suspended in the second read, with the bytes of one
    message buffered; the parser below maps any bytes to [msg]. *)
Definition json_pending (msg_bytes : list Z) : connection :=
  {| c_writer := 1; is_thermal := false;
     reader := {| r_buffer := msg_bytes; r_eof := false |};
     c_pc := AwaitMessage (Z.of_nat (length msg_bytes)) |}.

Definition parses_as (msg : json) : list Z -> option json := fun _ => Some msg.

(** A thermal connection suspended in the payload read, header
    [00 00 01 23 02], payload [0A 14] buffered. *)
Definition thermal_pending : connection :=
  {| c_writer := 0; is_thermal := true;
     reader := {| r_buffer := [10; 20]; r_eof := false |};
     c_pc := AwaitData [0; 0; 1; 0x23; 2] |}.

(** ** More of the bridge and of its compact-format client *)

(** A frame whose fields agree with each other: the buffer is there, the
    size field is its length, at most 64 bytes of byte values, and the dlc
    is a CAN FD code that covers the size. *)
Definition well_formed_frame (f : CanFrame) : Prop :=
  exists buf,
    bv_data (data f) = Some buf /\
    bv_size (data f) = Z.of_nat (length buf) /\
    Forall is_byte buf /\
    0 <= id f < 2 ^ 32 /\ flags f = 0 /\
    0 <= dlc f <= 15 /\
    Z.of_nat (length buf) <= get_dlc_size (dlc f) <= 64.

(** The thermal branch applied to the frames of a stream, in order *)
Definition forward_all (SF : list CanFrame -> CanFrame -> Z)
    (frames : list (Z * list Z)) (st : bridge) : bridge :=
  foldl (fun st '(can_id, payload) =>
           forward_raw SF (be32 can_id ++ [Z.of_nat (length payload)]) payload st)
        st frames.

(** What the thermal branch forwards: a non-empty buffer whose length is
    both the size field and the dlc. *)
Definition length_tagged_frame (f : CanFrame) : Prop :=
  exists buf,
    bv_data (data f) = Some buf /\ buf <> [] /\
    bv_size (data f) = Z.of_nat (length buf) /\
    dlc f = Z.of_nat (length buf).

(** Several compact frames back to back on the wire *)
Definition compact_stream (frames : list (Z * list Z)) : list Z :=
  concat ((fun '(can_id, payload) => compact_frame can_id payload) <$> frames).

(** [scripts/test_telematics.py]: the client side of the compact format.
    A Python list of integers given to [bytes(...)] *)
Definition bytes_of_ints (l : list Z) : result (list Z) :=
  if forallb (fun b => (0 <=? b) && (b <=? 255)) l then Ok l
  else Raise ValueError.

(** [struct.pack('>IB', can_id, dlc)] *)
Definition pack_IB (can_id dlc : Z) : result (list Z) :=
  match pack_I can_id, pack_B dlc with
  | Some i, Some b => Ok (i ++ b)
  | _, _ => Raise StructError
  end.

(** [struct.unpack('>IB', bs)] *)
Definition unpack_IB (bs : list Z) : result (Z * Z) :=
  match bs with
  | [b0; b1; b2; b3; b4] =>
      Ok (Z.lor
            (Z.lor (Z.lor (Z.shiftl b0 24) (Z.shiftl b1 16)) (Z.shiftl b2 8))
            b3, b4)
  | _ => Raise StructError
  end.

(** [encode_can_message] *)
Definition encode_can_message (can_id : Z) (data : list Z) : result (list Z) :=
  let dlc := Z.of_nat (length data) in
  if dlc >? 8 then Raise ValueError
  else
    header ← pack_IB can_id dlc;
    payload ← bytes_of_ints data;
    Ok (header ++ payload).

(** [decode_can_message]: [(can_id, dlc, data_payload)] or [None], and the
    remaining bytes. *)
Definition decode_can_message (tcp_data : list Z)
  : result (option (Z * Z * list Z) * list Z) :=
  if (length tcp_data <? 5)%nat then Ok (None, tcp_data)
  else
    '(can_id, dlc) ← unpack_IB (take 5 tcp_data);
    let expected_payload_len := dlc in
    let expected_frame_len := 5 + expected_payload_len in
    if Z.of_nat (length tcp_data) <? expected_frame_len then Ok (None, tcp_data)
    else
      let data_payload :=
        drop 5 (take (Z.to_nat expected_frame_len) tcp_data) in
      let remaining_tcp_data := drop (Z.to_nat expected_frame_len) tcp_data in
      Ok (Some (can_id, dlc, data_payload), remaining_tcp_data).

(** A JSON connection (writer 1) at the top of its loop, nothing buffered. *)
Definition json_pending_top : connection :=
  {| c_writer := 1; is_thermal := false;
     reader := {| r_buffer := []; r_eof := false |}; c_pc := LoopTop |}.

(** ** Start-up: [SilKitBridge.__init__] and [send_test_frame] *)

(** The SIL-Kit calls of [__init__], in the order in which it makes them *)
Inductive silkit_call :=
  | ParticipantConfiguration_FromString
  | Participant_Create
  | LifecycleService_Create
  | CanController_Create
  | CanController_AddFrameHandler
  | CanController_Start
  | LifecycleService_StartLifecycle.

Definition call_index (c : silkit_call) : nat :=
  match c with
  | ParticipantConfiguration_FromString => 0
  | Participant_Create => 1
  | LifecycleService_Create => 2
  | CanController_Create => 3
  | CanController_AddFrameHandler => 4
  | CanController_Start => 5
  | LifecycleService_StartLifecycle => 6
  end.

(** What [__init__] prints *)
Inductive init_report :=
  | Initializing
  | CallDone (c : silkit_call)
  | StartingController
  | StartingLifecycle
  | LifecycleWarning (err : Z)
  | SendingTestFrame
  | SendingTestFrameId (can_id : Z)
  | TestFrameError (err : Z)
  | TestFrameSent
  | InitComplete.

(** [__init__] either raises [RuntimeError] naming a call and its status,
    or leaves a bridge object. *)
Inductive init_outcome :=
  | InitRaised (c : silkit_call) (err : Z)
  | InitDone (st : bridge).

(** The frame built by [send_test_frame]: id 0x123, dlc 8, data 1..8 *)
Definition test_frame : CanFrame := raw_CanFrame 0x123 8 [1; 2; 3; 4; 5; 6; 7; 8].

(** [send_test_frame]: the frame is announced and goes to the transport;
    the status only selects the message printed after it. *)
Definition send_test_frame (SF : list CanFrame -> CanFrame -> Z)
    (sent_before : list CanFrame) : list init_report * list CanFrame :=
  let err := SF sent_before test_frame in
  ([SendingTestFrameId 0x123;
    if err =? 0 then TestFrameSent else TestFrameError err],
   sent_before ++ [test_frame]).

(** [__init__], given the status each SIL-Kit call returns and the writer
    objects that will exist. *)
Definition init (status : silkit_call -> Z)
    (SF : list CanFrame -> CanFrame -> Z) (heap : gmap nat StreamWriter)
  : list init_report * init_outcome :=
  let out := [Initializing] in
  let err := status ParticipantConfiguration_FromString in
  if negb (err =? 0) then (out, InitRaised ParticipantConfiguration_FromString err)
  else
  let out := out ++ [CallDone ParticipantConfiguration_FromString] in
  let err := status Participant_Create in
  if negb (err =? 0) then (out, InitRaised Participant_Create err)
  else
  let out := out ++ [CallDone Participant_Create] in
  let result := status LifecycleService_Create in
  if negb (result =? 0) then (out, InitRaised LifecycleService_Create result)
  else
  let out := out ++ [CallDone LifecycleService_Create] in
  let err := status CanController_Create in
  if negb (err =? 0) then (out, InitRaised CanController_Create err)
  else
  let out := out ++ [CallDone CanController_Create] in
  let err := status CanController_AddFrameHandler in
  if negb (err =? 0) then (out, InitRaised CanController_AddFrameHandler err)
  else
  let out := out ++ [CallDone CanController_AddFrameHandler; StartingController] in
  let err := status CanController_Start in
  if negb (err =? 0) then (out, InitRaised CanController_Start err)
  else
  let out := out ++ [CallDone CanController_Start; StartingLifecycle] in
  let result := status LifecycleService_StartLifecycle in
  let out :=
    out ++ [if negb (result =? 0) then LifecycleWarning result
            else CallDone LifecycleService_StartLifecycle] in
  let out := out ++ [SendingTestFrame] in
  let '(printed, sent_after) := send_test_frame SF [] in
  let out := out ++ printed in
  (out ++ [InitComplete],
   InitDone {| clients := ∅; writers := heap; data_buffers := [];
               sent := sent_after; log := [] |}).

(** Statuses for the examples: everything succeeds; only the lifecycle
    start fails; the controller cannot be created. *)
Definition all_ok : silkit_call -> Z := fun _ => 0.

Definition lifecycle_fails : silkit_call -> Z :=
  fun c => match c with LifecycleService_StartLifecycle => 8 | _ => 0 end.

Definition controller_fails : silkit_call -> Z :=
  fun c => match c with
           | CanController_Create => 4
           | CanController_Start => 8
           | _ => 0
           end.

(** ** Byte order *)

Lemma testbit_above_32 (v n : Z) :
  0 <= v < 2 ^ 32 -> 32 <= n -> Z.testbit v n = false.
Proof.
  intros Hv Hn. rewrite <- (Z.mod_small v (2 ^ 32)) by lia.
  apply Z.mod_pow2_bits_high. lia.
Qed.

(** Bit [n] of [((v >> k) & 255) << k] is bit [n] of [v] inside the byte
    at offset [k], and clear outside. *)
Lemma testbit_byte_at (v k n : Z) :
  0 <= k -> 0 <= n ->
  Z.testbit (Z.shiftl (Z.land (Z.shiftr v k) 255) k) n =
  Z.testbit v n && (k <=? n) && (n <? k + 8).
Proof.
  intros Hk Hn. rewrite Z.shiftl_spec by lia.
  destruct (Z.leb_spec k n).
  - rewrite Z.land_spec, Z.shiftr_spec by lia.
    change 255 with (Z.ones 8). rewrite Z.testbit_ones_nonneg by lia.
    replace (n - k + k) with n by lia.
    destruct (Z.ltb_spec (n - k) 8), (Z.ltb_spec n (k + 8)); try lia;
      by rewrite ?andb_true_r, ?andb_false_r.
  - rewrite Z.testbit_neg_r by lia. by rewrite andb_false_r.
Qed.

Lemma can_id_of_be32 (v : Z) (rest : list Z) :
  0 <= v < 2 ^ 32 -> can_id_of (be32 v ++ rest) = v.
Proof.
  intros Hv. unfold can_id_of, be32. simpl.
  apply Z.bits_inj'. intros n Hn.
  replace (Z.land v 255) with (Z.shiftl (Z.land (Z.shiftr v 0) 255) 0)
    by (by rewrite Z.shiftl_0_r, Z.shiftr_0_r).
  rewrite !Z.lor_spec, !testbit_byte_at by lia.
  destruct (Z.testbit v n) eqn:Hb; simpl; [| reflexivity].
  destruct (Z.lt_ge_cases n 32) as [Hlt|Hge];
    [| rewrite testbit_above_32 in Hb by lia; discriminate].
  repeat match goal with
         | |- context [?a <=? ?b] => destruct (Z.leb_spec a b)
         | |- context [?a <? ?b] => destruct (Z.ltb_spec a b)
         end; simpl; try reflexivity; lia.
Qed.

Lemma land_255_byte (x : Z) : is_byte (Z.land x 255).
Proof.
  unfold is_byte. change 255 with (Z.ones 8) at 1 2.
  rewrite Z.land_ones by lia.
  pose proof (Z.mod_pos_bound x (2 ^ 8)). lia.
Qed.

Lemma be32_bytes (v : Z) : Forall is_byte (be32 v).
Proof. unfold be32. repeat (constructor; [apply land_255_byte |]). constructor. Qed.

Lemma length_compact_frame (can_id : Z) (payload : list Z) :
  length (compact_frame can_id payload) = (5 + length payload)%nat.
Proof. reflexivity. Qed.

(** ** The connection handler, step by step *)

Section Handler.

Context (SF : list CanFrame -> CanFrame -> Z).
Context (JL : list Z -> option json).

Lemma run_suspended (fuel : nat) (c : connection) (st : bridge) :
  step SF JL c st = None -> run SF JL fuel c st = (c, st).
Proof. intros H. destruct fuel; simpl; [done | by rewrite H]. Qed.

Lemma run_resumed (fuel : nat) (c c' : connection) (st st' : bridge) :
  step SF JL c st = Some (c', st') ->
  run SF JL (S fuel) c st = run SF JL fuel c' st'.
Proof. intros H. simpl. by rewrite H. Qed.

Lemma step_finished (c : connection) (st : bridge) :
  c_pc c = Finished -> step SF JL c st = None.
Proof. intros H. unfold step. by rewrite H. Qed.

Lemma step_waiting (c : connection) (st : bridge) :
  c_pc c = LoopTop -> r_buffer (reader c) = [] -> r_eof (reader c) = false ->
  step SF JL c st = None.
Proof.
  intros Hpc Hbuf Heof. unfold step, read. rewrite Hpc, Hbuf, Heof.
  by destruct (is_thermal c).
Qed.

Lemma read_buffered (n : Z) (r : StreamReader) :
  n <> 0 -> r_buffer r <> [] ->
  read n r = Ready (take (Z.to_nat n) (r_buffer r))
               {| r_buffer := drop (Z.to_nat n) (r_buffer r); r_eof := r_eof r |}.
Proof.
  intros Hn Hbuf. unfold read.
  destruct (Z.eqb_spec n 0); [done |]. by destruct (r_buffer r).
Qed.

Lemma step_header (c : connection) (st : bridge) (h0 h1 h2 h3 h4 : Z)
    (rest : list Z) :
  is_thermal c = true -> c_pc c = LoopTop ->
  r_buffer (reader c) = h0 :: h1 :: h2 :: h3 :: h4 :: rest ->
  step SF JL c st =
    Some (at_pc (AwaitData [h0; h1; h2; h3; h4])
            {| r_buffer := rest; r_eof := r_eof (reader c) |} c, st).
Proof.
  intros Hth Hpc Hbuf. unfold step.
  rewrite Hpc, Hth, read_buffered, Hbuf by (by rewrite ?Hbuf). done.
Qed.

Lemma step_short_header (c : connection) (st : bridge) (p : list Z) :
  is_thermal c = true -> c_pc c = LoopTop ->
  r_buffer (reader c) = p -> p <> [] -> (length p < 5)%nat ->
  step SF JL c st =
    Some (finally {| r_buffer := []; r_eof := r_eof (reader c) |} c
            (print IncompleteHeader st)).
Proof.
  intros Hth Hpc Hbuf Hne Hlen. unfold step.
  rewrite Hpc, Hth, read_buffered, Hbuf by (by rewrite ?Hbuf).
  change (Z.to_nat 5) with 5%nat. rewrite take_ge, drop_ge by lia.
  apply Nat.ltb_lt in Hlen. rewrite Hlen. by rewrite orb_true_r.
Qed.

Lemma step_payload (c : connection) (st : bridge) (header payload rest : list Z) :
  c_pc c = AwaitData header ->
  nth 4 header 0 = Z.of_nat (length payload) -> payload <> [] ->
  r_buffer (reader c) = payload ++ rest ->
  step SF JL c st =
    Some (at_pc LoopTop {| r_buffer := rest; r_eof := r_eof (reader c) |} c,
          forward_raw SF header payload st).
Proof.
  intros Hpc Hlen Hne Hbuf. unfold step.
  assert (length payload <> 0%nat) by (by destruct payload).
  rewrite Hpc, read_buffered, Hbuf, Hlen; [| lia | rewrite Hbuf; by destruct payload].
  rewrite Nat2Z.id, take_app_length, drop_app_length.
  rewrite bool_decide_eq_false_2 by done.
  by rewrite Z.ltb_irrefl.
Qed.

Lemma step_short_payload (c : connection) (st : bridge) (header p : list Z) :
  c_pc c = AwaitData header ->
  r_buffer (reader c) = p -> p <> [] -> Z.of_nat (length p) < nth 4 header 0 ->
  step SF JL c st =
    Some (finally {| r_buffer := []; r_eof := r_eof (reader c) |} c
            (print IncompleteData st)).
Proof.
  intros Hpc Hbuf Hne Hlen. unfold step.
  rewrite Hpc, read_buffered, Hbuf; [| lia | by rewrite Hbuf].
  rewrite take_ge, drop_ge by lia.
  apply Z.ltb_lt in Hlen. rewrite Hlen. by rewrite orb_true_r.
Qed.

Lemma step_wait_payload (c : connection) (st : bridge) (header : list Z) :
  c_pc c = AwaitData header -> nth 4 header 0 <> 0 ->
  r_buffer (reader c) = [] -> r_eof (reader c) = false ->
  step SF JL c st = None.
Proof.
  intros Hpc Hlen Hbuf Heof. unfold step, read. rewrite Hpc, Hbuf, Heof.
  by destruct (Z.eqb_spec (nth 4 header 0) 0).
Qed.

(** What the thermal branch does with a complete frame *)
Lemma forward_raw_sent (header data_bytes : list Z) (st : bridge) :
  sent (forward_raw SF header data_bytes st) =
    sent st ++ [raw_CanFrame (can_id_of header) (nth 4 header 0) data_bytes].
Proof. unfold forward_raw. simpl. case_match; done. Qed.

Lemma forward_raw_clients (header data_bytes : list Z) (st : bridge) :
  clients (forward_raw SF header data_bytes st) = clients st /\
  writers (forward_raw SF header data_bytes st) = writers st.
Proof. unfold forward_raw. simpl. case_match; done. Qed.

Lemma forward_raw_log (header data_bytes : list Z) (st : bridge) :
  let can_id := can_id_of header in
  let data_len := nth 4 header 0 in
  let err := SF (sent st) (raw_CanFrame can_id data_len data_bytes) in
  log (forward_raw SF header data_bytes st) =
    log st ++ [ReceivedRaw can_id data_len; ForwardingRaw can_id data_len;
               if err =? 0 then SendOkRaw can_id data_len else SendFailedRaw err].
Proof.
  unfold forward_raw. simpl. case_match; simpl; by rewrite <- !app_assoc.
Qed.

(** The [finally] block closes the writer and takes it out of the registry;
    nothing is sent. *)
Lemma finally_spec (r : StreamReader) (c : connection) (st : bridge) :
  c_pc (fst (finally r c st)) = Finished /\
  reader (fst (finally r c st)) = r /\
  (c_writer c ∉ clients (snd (finally r c st))) /\
  sent (snd (finally r c st)) = sent st.
Proof.
  unfold finally. simpl. split_and!; try done.
  apply not_elem_of_difference. right. by apply elem_of_singleton.
Qed.

(** ... and that is all it does to the registry and the writers. *)
Lemma finally_registry (r : StreamReader) (c : connection) (st : bridge) :
  clients (snd (finally r c st)) = clients st ∖ {[c_writer c]} /\
  writers (snd (finally r c st)) = alter writer_close (c_writer c) (writers st).
Proof. done. Qed.

Lemma run_to_finally (fuel : nat) (c : connection) (st st0 : bridge)
    (r : StreamReader) :
  step SF JL c st = Some (finally r c st0) ->
  run SF JL (S fuel) c st = finally r c st0.
Proof.
  intros H. simpl. rewrite H. unfold finally.
  apply run_suspended, step_finished. reflexivity.
Qed.

(** A whole compact frame in the buffer: two steps decode it. *)
Lemma run_whole_frame (fuel : nat) (c : connection) (st : bridge)
    (can_id : Z) (payload rest : list Z) :
  is_thermal c = true -> c_pc c = LoopTop ->
  r_buffer (reader c) = compact_frame can_id payload ++ rest ->
  payload <> [] ->
  run SF JL (S (S fuel)) c st =
    run SF JL fuel
      (at_pc LoopTop {| r_buffer := rest; r_eof := r_eof (reader c) |} c)
      (forward_raw SF (be32 can_id ++ [Z.of_nat (length payload)]) payload st).
Proof.
  intros Hth Hpc Hbuf Hne. unfold compact_frame, be32 in Hbuf. simpl in Hbuf.
  erewrite run_resumed; [| apply step_header; done].
  erewrite run_resumed; [| eapply (step_payload _ _ _ payload rest); done].
  reflexivity.
Qed.

(** *** The JSON branch *)

Lemma to_bytes_ints (entries : list Z) :
  Forall is_byte entries -> to_bytes (JList (JInt <$> entries)) = Ok entries.
Proof.
  intros H. cbn [to_bytes]. induction H as [|b l Hb _ IH]; [done |].
  cbn [fmap list_fmap mapM]. unfold is_byte in Hb.
  cbn [byte_of_item].
  destruct (Z.leb_spec 0 b), (Z.leb_spec b 255); try lia.
  cbn [andb mbind result_bind]. by rewrite IH.
Qed.

(** A frame message with an integer id and a list of bytes: one frame is
    handed to the transport, its status is reported, no exception. *)
Lemma forward_json_can (kv : gmap string json) (msg_id : Z) (entries : list Z)
    (st : bridge) :
  kv !! "type" = Some (JStr "can") -> kv !! "id" = Some (JInt msg_id) ->
  kv !! "data" = Some (JList (JInt <$> entries)) -> Forall is_byte entries ->
  let frame := json_frame msg_id entries in
  let err := SF (sent st) frame in
  let too_long := snd (set_dlc (Z.of_nat (length entries))) in
  exists st',
    forward_json SF (JDict kv) st = (st', None) /\
    sent st' = sent st ++ [frame] /\
    clients st' = clients st /\ writers st' = writers st /\
    log st' =
      log st ++ [ReceivedJson msg_id;
                 Converting (msg_id `mod` 2 ^ 32) entries] ++
        (if too_long then [TruncationWarning] else []) ++
        [Sending (id frame) (bv_size (data frame));
         if err =? 0 then SendOk (id frame) (bv_size (data frame))
         else SendFailed err].
Proof.
  intros Hty Hid Hdata Hbytes. cbv zeta.
  unfold forward_json, json_frame. cbn [getitem dict_get]. rewrite Hty, Hid, Hdata.
  cbn [is_can String.eqb Ascii.eqb Bool.eqb andb mbind result_bind format_x
       from_option].
  rewrite to_bytes_ints by done.
  destruct (set_dlc (Z.of_nat (length entries))) as [frame_dlc too_long].
  cbn [snd]. unfold send_frame.
  destruct too_long; cbn [sent print keep_buffer set_data_buffers log clients
    writers json_CanFrame id data bv_size];
    case_match; eexists; (split; [reflexivity |]); cbn; rewrite <- ?app_assoc;
    done.
Qed.

Lemma is_can_false (ty : json) : ty <> JStr "can" -> is_can ty = false.
Proof.
  intros Hne. destruct ty; try done. cbn [is_can].
  apply String.eqb_neq. congruence.
Qed.

(** A message of another type: nothing happens, no exception. *)
Lemma forward_json_other (kv : gmap string json) (ty : json) (st : bridge) :
  kv !! "type" = Some ty -> ty <> JStr "can" ->
  forward_json SF (JDict kv) st = (st, None).
Proof.
  intros Hty Hne. unfold forward_json. cbn [getitem]. rewrite Hty.
  by rewrite is_can_false.
Qed.

(** A parsed message handled without exception: back to the loop top. *)
Lemma step_message (c : connection) (st st' : bridge) (msg_length : Z)
    (msg_bytes : list Z) (r : StreamReader) (msg : json) :
  c_pc c = AwaitMessage msg_length ->
  read msg_length (reader c) = Ready msg_bytes r -> msg_bytes <> [] ->
  JL msg_bytes = Some msg -> forward_json SF msg st = (st', None) ->
  step SF JL c st = Some (at_pc LoopTop r c, st').
Proof.
  intros Hpc Hread Hne Hmsg Hfw. unfold step.
  rewrite Hpc, Hread, bool_decide_eq_false_2, Hmsg, Hfw by done. done.
Qed.

(** A complete payload read in the thermal branch *)
Lemma step_data_read (c : connection) (st : bridge) (header data_bytes : list Z)
    (r : StreamReader) :
  c_pc c = AwaitData header ->
  read (nth 4 header 0) (reader c) = Ready data_bytes r -> data_bytes <> [] ->
  nth 4 header 0 <= Z.of_nat (length data_bytes) ->
  step SF JL c st = Some (at_pc LoopTop r c, forward_raw SF header data_bytes st).
Proof.
  intros Hpc Hread Hne Hlen. unfold step. cbv zeta.
  rewrite Hpc, Hread, bool_decide_eq_false_2 by done.
  destruct (Z.ltb_spec (Z.of_nat (length data_bytes)) (nth 4 header 0)); [lia |].
  done.
Qed.

(** *** Every run reaches a suspension point *)

Lemma read_ready (n : Z) (r r' : StreamReader) (got : list Z) :
  read n r = Ready got r' ->
  (length got + length (r_buffer r') = length (r_buffer r))%nat.
Proof.
  unfold read. destruct (n =? 0); [by intros [= <- <-] |].
  destruct (r_buffer r) as [|b buf] eqn:Hbuf.
  - destruct (r_eof r); [| done]. intros [= <- <-]. by rewrite Hbuf.
  - intros [= <- <-]. cbn [r_buffer].
    rewrite <- (take_drop (Z.to_nat n) (b :: buf)) at 3. by rewrite length_app.
Qed.

Lemma step_decreases (c c' : connection) (st st' : bridge) :
  step SF JL c st = Some (c', st') -> (steps_left c' < steps_left c)%nat.
Proof.
  unfold step, raised, finally.
  destruct (c_pc c) eqn:Hpc; [destruct (is_thermal c) | | | done].
  all: match goal with
       | |- context [read ?n ?r] =>
           destruct (read n r) as [|got r0] eqn:Hread; [done |];
           apply read_ready in Hread
       end.
  all: repeat case_match; intros [= <- <-]; unfold steps_left; rewrite Hpc;
    cbn [reader c_pc at_pc r_buffer].
  all: try lia.
  all: destruct got; [| simpl in Hread; lia].
  all: repeat match goal with
       | H : bool_decide _ || _ = false |- _ => apply orb_false_elim in H as [H _]
       | H : bool_decide ([] = []) = false |- _ =>
           by rewrite bool_decide_eq_true_2 in H
       end.
Qed.

Lemma run_settles_within (fuel : nat) (c : connection) (st : bridge) :
  (steps_left c < fuel)%nat ->
  step SF JL (fst (run SF JL fuel c st)) (snd (run SF JL fuel c st)) = None.
Proof.
  revert c st. induction fuel as [|fuel IH]; intros c st Hlt; [lia |].
  cbn [run]. destruct (step SF JL c st) as [[c' st']|] eqn:Hstep; [| done].
  apply IH. apply step_decreases in Hstep. lia.
Qed.

(** With the fuel the event loop gives it, the coroutine always runs up
    to a [read] that suspends, or to its end. *)
Lemma run_settles (c : connection) (st : bridge) :
  step SF JL (fst (run SF JL (enough c) c st))
             (snd (run SF JL (enough c) c st)) = None.
Proof.
  apply run_settles_within. unfold steps_left, enough.
  destruct (c_pc c); lia.
Qed.

(** *** Frames handed to the transport *)

Lemma forward_json_sent (msg : json) (st : bridge) :
  exists new, sent (fst (forward_json SF msg st)) = sent st ++ new /\
    Forall (fun f => flags f = 0) new.
Proof.
  unfold forward_json.
  repeat case_match; unfold send_frame in *; simplify_eq; cbn [fst];
    try (exists []; split; [by rewrite app_nil_r | constructor]).
  all: eexists [_]; split; [reflexivity || (cbn; reflexivity) |];
    by repeat constructor.
Qed.

Lemma step_sent (c c' : connection) (st st' : bridge) :
  step SF JL c st = Some (c', st') ->
  exists new, sent st' = sent st ++ new /\ Forall (fun f => flags f = 0) new.
Proof.
  unfold step, raised, finally.
  repeat case_match; intros ?; simplify_eq; cbn [sent print set_clients set_writers];
    try (exists []; split; [by rewrite app_nil_r | constructor]).
  - eexists [_]. split; [apply forward_raw_sent |]. by repeat constructor.
  - match goal with H : forward_json _ ?m ?s = _ |- _ =>
      destruct (forward_json_sent m s) as (new & Hs & Hf); rewrite H in Hs end.
    by exists new.
  - match goal with H : forward_json _ ?m ?s = _ |- _ =>
      destruct (forward_json_sent m s) as (new & Hs & Hf); rewrite H in Hs end.
    by exists new.
Qed.

Lemma run_sent (fuel : nat) (c : connection) (st : bridge) :
  exists new, sent (snd (run SF JL fuel c st)) = sent st ++ new /\
    Forall (fun f => flags f = 0) new.
Proof.
  revert c st. induction fuel as [|fuel IH]; intros c st; cbn [run].
  - exists []. split; [by rewrite app_nil_r | constructor].
  - destruct (step SF JL c st) as [[c' st']|] eqn:Hstep.
    + destruct (step_sent _ _ _ _ Hstep) as (n1 & Hs1 & Hf1).
      destruct (IH c' st') as (n2 & Hs2 & Hf2).
      exists (n1 ++ n2). split; [by rewrite Hs2, Hs1, app_assoc |].
      by apply Forall_app.
    + exists []. split; [by rewrite app_nil_r | constructor].
Qed.

End Handler.

(** ** Bus frames to clients *)

Lemma get_dlc_size_range (d : Z) : 0 <= d -> 0 <= get_dlc_size d <= 64.
Proof.
  intros Hd. unfold get_dlc_size.
  repeat match goal with
         | |- context [?a <=? ?b] => destruct (Z.leb_spec a b)
         | |- context [?a =? ?b] => destruct (Z.eqb_spec a b)
         end; lia.
Qed.

Lemma data_size_range (f : CanFrame) :
  frame_in_range f -> 0 <= data_size_of f <= 64.
Proof.
  intros [_ Hd Hs _]. unfold data_size_of.
  pose proof (get_dlc_size_range (dlc f)).
  destruct (bv_data (data f)); lia.
Qed.

Lemma length_data_array (f : CanFrame) :
  frame_in_range f -> Z.of_nat (length (data_array_of f)) = data_size_of f.
Proof.
  intros Hf. pose proof (data_size_range f Hf) as Hr.
  unfold data_array_of. unfold data_size_of in *.
  destruct (bv_data (data f)) as [buf|]; [| done].
  destruct (Z.gtb_spec (Z.min (get_dlc_size (dlc f)) (bv_size (data f))) 0).
  - rewrite length_fmap, length_seq. lia.
  - simpl. lia.
Qed.

Lemma data_array_bytes (f : CanFrame) :
  frame_in_range f -> Forall is_byte (data_array_of f).
Proof.
  intros [_ _ _ Hb]. unfold data_array_of.
  destruct (bv_data (data f)) as [buf|] eqn:Hbuf; [| constructor].
  case_match; [| constructor].
  apply Forall_fmap, Forall_forall. intros i _. simpl.
  specialize (Hb buf eq_refl).
  destruct (nth_in_or_default i buf 0) as [Hin| ->]; [| unfold is_byte; lia].
  rewrite List.Forall_forall in Hb. by apply Hb.
Qed.

Lemma pack_B_byte (b : Z) : is_byte b -> pack_B b = Some [b].
Proof.
  unfold pack_B, is_byte. intros Hb.
  destruct (Z.leb_spec 0 b), (Z.leb_spec b 255); try lia. done.
Qed.

Lemma mapM_pack_B (l : list Z) :
  Forall is_byte l -> mapM pack_B l = Some ((fun b => [b]) <$> l).
Proof.
  induction 1 as [|b l Hb _ IH]; [done |].
  cbn [mapM]. by rewrite IH, pack_B_byte.
Qed.

Lemma concat_singletons (l : list Z) : concat ((fun b => [b]) <$> l) = l.
Proof. induction l as [|b l IH]; [done |]. cbn. f_equal. exact IH. Qed.

(** For a frame as the transport hands it over, packing never fails and
    the raw frame is id, length byte, data. *)
Lemma raw_frame_in_range (f : CanFrame) :
  frame_in_range f ->
  raw_frame_of f = Some (be32 (id f) ++ [data_size_of f] ++ data_array_of f).
Proof.
  intros Hf. pose proof (data_size_range f Hf) as Hr.
  pose proof (id_range f Hf) as Hid.
  unfold raw_frame_of, pack_I.
  destruct (Z.leb_spec 0 (id f)), (Z.ltb_spec (id f) (2 ^ 32)); try lia.
  cbn [andb mbind option_bind].
  rewrite pack_B_byte by (unfold is_byte; lia).
  rewrite mapM_pack_B by (by apply data_array_bytes).
  cbn [mbind option_bind]. by rewrite concat_singletons.
Qed.

Lemma alter_delivered_broken (raw : list Z) (a : nat) (writer : StreamWriter)
    (m : gmap nat StreamWriter) :
  m !! a = Some writer -> w_broken writer = true -> alter (delivered raw) a m = m.
Proof.
  intros Hm Hb. apply map_eq. intros i. rewrite lookup_alter.
  case_decide; [| done]. subst. rewrite Hm. simpl. unfold delivered. by rewrite Hb.
Qed.

(** One pass of the loop body: the registry and the bus side are not
    touched, the writer gets the bytes unless its [write] raises, and a
    raising [write] is reported. *)
Lemma send_to_client_spec (raw : list Z) (st : bridge) (n : Z) (a : nat) :
  let res := send_to_client raw (st, n) a in
  clients (fst res) = clients st /\
  sent (fst res) = sent st /\
  writers (fst res) = alter (delivered raw) a (writers st) /\
  exists extra, log (fst res) = log st ++ extra /\
    (forall writer, writers st !! a = Some writer -> w_broken writer = true ->
       WriteError ∈ extra).
Proof.
  unfold send_to_client.
  destruct (writers st !! a) as [writer|] eqn:Hw; cbn zeta.
  - destruct (w_broken writer) eqn:Hb.
    + split_and!.
      * by case_match.
      * by case_match.
      * rewrite (alter_delivered_broken raw a writer) by done. by case_match.
      * case_match; simpl; rewrite <- ?app_assoc; eexists; (split; [done |]);
          intros; rewrite ?elem_of_app, ?elem_of_cons; auto.
    + split_and!.
      * by case_match.
      * by case_match.
      * case_match; simpl; apply map_eq; intros i;
          rewrite lookup_insert, lookup_alter; case_decide; subst;
          rewrite ?Hw; simpl; unfold delivered; by rewrite ?Hb.
      * case_match; simpl; eexists; (split; [try done; by rewrite app_nil_r |]);
          intros ? [= <-]; congruence.
  - split_and!; try done.
    + apply map_eq. intros i. rewrite lookup_alter. case_decide; subst; by rewrite ?Hw.
    + exists []. split; [by rewrite app_nil_r | done].
Qed.

(** The whole loop over distinct handles. *)
Lemma fanout_fold (raw : list Z) (l : list nat) :
  NoDup l -> forall (st : bridge) (n : Z),
  let res := foldl (send_to_client raw) (st, n) l in
  clients (fst res) = clients st /\
  sent (fst res) = sent st /\
  (forall w, writers (fst res) !! w =
     if decide (w ∈ l) then delivered raw <$> writers st !! w
     else writers st !! w) /\
  exists extra, log (fst res) = log st ++ extra /\
    (forall w writer, w ∈ l -> writers st !! w = Some writer ->
       w_broken writer = true -> WriteError ∈ extra).
Proof.
  induction 1 as [|a l Ha Hl IH]; intros st n; cbn zeta.
  - simpl. split_and!; try done. exists []. split; [by rewrite app_nil_r |].
    intros w writer Hw. by apply elem_of_nil in Hw.
  - cbn [foldl].
    pose proof (send_to_client_spec raw st n a) as (Hc & Hs & Hw & e1 & Hlog & Herr).
    destruct (send_to_client raw (st, n) a) as [st1 n1]. cbn [fst] in *.
    specialize (IH st1 n1) as (Hc' & Hs' & Hw' & e2 & Hlog' & Herr').
    split_and!.
    + congruence.
    + congruence.
    + intros w. rewrite Hw', Hw, lookup_alter.
      destruct (decide (a = w)) as [<-|Hne].
      * rewrite decide_False by done.
        by rewrite decide_True by apply list_elem_of_here.
      * destruct (decide (w ∈ l)).
        -- by rewrite decide_True by (by apply list_elem_of_further).
        -- rewrite decide_False; [done |].
           apply not_elem_of_cons. by split.
    + exists (e1 ++ e2). split; [by rewrite Hlog', Hlog, app_assoc |].
      intros w writer Hin Hlk Hb. apply elem_of_app.
      destruct (decide (a = w)) as [<-|Hne]; [left; by eapply Herr |].
      right. apply (Herr' w writer); [| by rewrite Hw, lookup_alter_ne | done].
      apply elem_of_cons in Hin as [->|Hin]; done.
Qed.

(** [handle_can_message] on a frame as the transport hands it over: the
    registry and the bus side are untouched; every registered writer whose
    [write] does not raise has the raw frame appended; raising writes are
    reported and change nothing else. *)
Lemma handle_can_message_spec (f : CanFrame) (st : bridge) :
  frame_in_range f ->
  let raw := be32 (id f) ++ [data_size_of f] ++ data_array_of f in
  let st' := handle_can_message f st in
  clients st' = clients st /\
  sent st' = sent st /\
  (forall w, writers st' !! w =
     if decide (w ∈ clients st) then delivered raw <$> writers st !! w
     else writers st !! w) /\
  (forall w writer, w ∈ clients st -> writers st !! w = Some writer ->
     w_broken writer = true -> WriteError ∈ log st').
Proof.
  intros Hf raw st'. subst st'. unfold handle_can_message.
  rewrite (raw_frame_in_range f Hf). fold raw.
  set (st0 := match bv_data (data f) with Some _ => _ | None => _ end).
  assert (H0 : clients st0 = clients st /\ sent st0 = sent st /\
               writers st0 = writers st).
  { subst st0. destruct (bv_data (data f)); [case_match |]; done. }
  destruct H0 as (Hc0 & Hs0 & Hw0).
  pose proof (fanout_fold raw (elements (clients st0)) (NoDup_elements _) st0 0)
    as (Hc & Hs & Hw & extra & Hlog & Herr).
  destruct (foldl (send_to_client raw) (st0, 0) (elements (clients st0)))
    as [st1 n1]. cbn [fst] in *. simpl.
  split_and!.
  - congruence.
  - congruence.
  - intros w. rewrite Hw, Hw0, Hc0.
    destruct (decide (w ∈ clients st)).
    + by rewrite decide_True by (by apply elem_of_elements).
    + by rewrite decide_False by (by rewrite elem_of_elements).
  - intros w writer Hin Hlk Hb. rewrite Hlog.
    apply elem_of_app. left. apply elem_of_app. right.
    apply (Herr w writer); [| congruence | done].
    apply elem_of_elements. by rewrite Hc0.
Qed.

Lemma nth_seq_all (buf : list Z) :
  (fun i => nth i buf 0) <$> seq 0 (length buf) = buf.
Proof.
  induction buf as [|b buf IH]; [done |].
  cbn [length seq fmap list_fmap]. f_equal.
  rewrite <- fmap_S_seq, <- list_fmap_compose. exact IH.
Qed.

(** A frame whose dlc and size both say [length buf] goes out whole. *)
Lemma raw_frame_consistent (f : CanFrame) (buf : list Z) :
  bv_data (data f) = Some buf ->
  get_dlc_size (dlc f) = Z.of_nat (length buf) ->
  bv_size (data f) = Z.of_nat (length buf) ->
  be32 (id f) ++ [data_size_of f] ++ data_array_of f = compact_frame (id f) buf.
Proof.
  intros Hbuf Hdlc Hsize. unfold compact_frame, data_array_of, data_size_of.
  rewrite Hbuf, Hdlc, Hsize, Z.min_id.
  destruct (Z.gtb_spec (Z.of_nat (length buf)) 0).
  - by rewrite Nat2Z.id, nth_seq_all.
  - destruct buf; [done | simpl in *; lia].
Qed.

Lemma nth_seq_take (buf : list Z) (n : nat) :
  (n <= length buf)%nat -> (fun i => nth i buf 0) <$> seq 0 n = take n buf.
Proof.
  revert n. induction buf as [|b buf IH]; intros n Hn.
  - destruct n; [done | simpl in Hn; lia].
  - destruct n as [|n]; [done |].
    cbn [seq fmap list_fmap take]. f_equal.
    rewrite <- fmap_S_seq, <- list_fmap_compose.
    apply IH. simpl in Hn. lia.
Qed.

(** The bytes taken from the buffer are its first [data_size] bytes. *)
Lemma data_array_take (f : CanFrame) (buf : list Z) :
  frame_in_range f -> bv_data (data f) = Some buf ->
  bv_size (data f) <= Z.of_nat (length buf) ->
  data_array_of f =
    take (Z.to_nat (Z.min (get_dlc_size (dlc f)) (bv_size (data f)))) buf.
Proof.
  intros Hf Hbuf Hsize. pose proof (data_size_range f Hf) as Hr.
  unfold data_array_of. unfold data_size_of in *. rewrite Hbuf in *.
  destruct (Z.gtb_spec (Z.min (get_dlc_size (dlc f)) (bv_size (data f))) 0).
  - apply nth_seq_take. lia.
  - replace (Z.min (get_dlc_size (dlc f)) (bv_size (data f))) with 0 by lia.
    by rewrite take_0.
Qed.

Lemma frame_999_in_range : frame_in_range frame_999.
Proof.
  split; simpl; try lia. intros buf [= <-].
  repeat (constructor; [unfold is_byte; lia |]). constructor.
Qed.

Lemma frame_short_dlc_in_range : frame_in_range frame_short_dlc.
Proof.
  split; simpl; try lia. intros buf [= <-].
  repeat (constructor; [unfold is_byte; lia |]). constructor.
Qed.

(** ** Length codes *)

Lemma elem_of_buckets (b : Z) :
  b ∈ buckets <->
  0 <= b <= 8 \/ b = 12 \/ b = 16 \/ b = 20 \/ b = 24 \/ b = 32 \/ b = 48 \/ b = 64.
Proof.
  unfold buckets. rewrite !elem_of_cons, elem_of_nil. lia.
Qed.

Lemma encode_length_cases (n : Z) :
  (n <= 8 /\ encode_length n = n) \/
  (9 <= n <= 12 /\ encode_length n = 9) \/
  (13 <= n <= 16 /\ encode_length n = 10) \/
  (17 <= n <= 20 /\ encode_length n = 11) \/
  (21 <= n <= 24 /\ encode_length n = 12) \/
  (25 <= n <= 32 /\ encode_length n = 13) \/
  (33 <= n <= 48 /\ encode_length n = 14) \/
  (49 <= n /\ encode_length n = 15).
Proof.
  unfold encode_length, set_dlc.
  repeat (case_match; [simpl; lia |]). simpl. lia.
Qed.

(** C1: for every payload length [n] in 0..=64, decoding the length code
    chosen by the JSON path gives a size that is at least [n], is a
    representable bucket, and is the smallest bucket that is at least [n];
    for [n] in 0..=8 it gives [n] back. *)
Theorem length_round_trip (n : Z) :
  0 <= n <= 64 ->
  n <= get_dlc_size (encode_length n) /\
  get_dlc_size (encode_length n) ∈ buckets /\
  (forall b, b ∈ buckets -> n <= b -> get_dlc_size (encode_length n) <= b) /\
  (n <= 8 -> get_dlc_size (encode_length n) = n).
Proof.
  intros Hn.
  setoid_rewrite elem_of_buckets.
  destruct (encode_length_cases n) as [[? ->]|[[? ->]|[[? ->]|[[? ->]|
    [[? ->]|[[? ->]|[[? ->]|[? ->]]]]]]]];
    unfold get_dlc_size; simpl;
    try (destruct (Z.leb_spec n 8); [| lia]);
    (split; [lia | split; [lia | split; [intros b; lia | lia]]]).
Qed.

Lemma length_round_trip_witness :
  0 <= 13 <= 64 /\ get_dlc_size (encode_length 13) = 16 /\
  13 <= get_dlc_size (encode_length 13).
Proof.
  split; [lia |]. split; [reflexivity |].
  apply (length_round_trip 13). lia.
Defined.

(** ** Partial compact frames *)

Example accept_thermal :
  snd (accept 0 sample_bridge) = Some thermal_connection /\
  clients (fst (accept 0 sample_bridge)) = {[0%nat]}.
Proof. split; vm_compute; reflexivity. Qed.

(** The state in which the thermal peer is registered and idle. *)
Example thermal_registered :
  fst (accept 0 sample_bridge) =
    {| clients := {[0%nat]}; writers := sample_writers; data_buffers := [];
       sent := []; log := [NewConnection] |}.
Proof. vm_compute. reflexivity. Qed.

(** C2 (as stated, refuted): with the first byte of the encoded frame
    id=0x123, data=[10,20] buffered, the handler does not wait: the byte
    is consumed, the connection is finished, and the writer is closed and
    taken out of the registry. *)
Lemma one_byte_prefix_closes :
  let res := on_data bus_ok no_json (take 1 (compact_frame 0x123 [10; 20]))
               thermal_connection (fst (accept 0 sample_bridge)) in
  c_pc (fst res) = Finished /\
  r_buffer (reader (fst res)) = [] /\
  (0%nat ∉ clients (snd res)) /\
  log (snd res) = [NewConnection; IncompleteHeader; ConnectionClosed] /\
  w_closed <$> writers (snd res) !! 0%nat = Some true.
Proof.
  vm_compute. split_and!; try reflexivity. intros H. discriminate H.
Qed.

(** C2 (amended): on a compact connection with an empty buffer, feeding
    the first [k] bytes of an encoded frame with a non-empty payload:
    nothing fed, or exactly the 5 header bytes fed, leaves the handler
    waiting with nothing forwarded; any other non-empty strict prefix
    closes the connection (the bytes are consumed, nothing is forwarded,
    the handler finishes, its writer is closed and leaves the registry,
    nothing else in registry and writers changes); the whole frame is
    decoded into exactly one forwarded frame with that id and payload (for
    payloads of 1 to 8 bytes the whole frame, dlc included, is the one
    sent), all bytes are consumed, registry and writers are unchanged and
    the handler waits for the next frame. *)
Theorem compact_prefix_behaviour
    (SF : list CanFrame -> CanFrame -> Z) (JL : list Z -> option json)
    (c : connection) (st : bridge) (can_id : Z) (payload : list Z) (k : nat) :
  is_thermal c = true -> c_pc c = LoopTop ->
  reader c = {| r_buffer := []; r_eof := false |} ->
  0 <= can_id < 2 ^ 32 -> (1 <= length payload <= 255)%nat ->
  let wire := compact_frame can_id payload in
  let res := on_data SF JL (take k wire) c st in
  (k = 0%nat -> res = (c, st)) /\
  (k = 5%nat -> res = (at_pc (AwaitData (take 5 wire)) (reader c) c, st)) /\
  ((0 < k < 5)%nat \/ (5 < k < length wire)%nat ->
     c_pc (fst res) = Finished /\ r_buffer (reader (fst res)) = [] /\
     (c_writer c ∉ clients (snd res)) /\ sent (snd res) = sent st /\
     clients (snd res) = clients st ∖ {[c_writer c]} /\
     writers (snd res) = alter writer_close (c_writer c) (writers st)) /\
  ((length wire <= k)%nat ->
     c_pc (fst res) = LoopTop /\ reader (fst res) = reader c /\
     clients (snd res) = clients st /\ writers (snd res) = writers st /\
     exists f, sent (snd res) = sent st ++ [f] /\ id f = can_id /\
       flags f = 0 /\
       data f = {| bv_data := Some payload;
                   bv_size := Z.of_nat (length payload) |} /\
       ((length payload <= 8)%nat ->
          f = raw_CanFrame can_id (Z.of_nat (length payload)) payload)).
Proof.
  intros Hth Hpc Hrd Hid Hlen wire res.
  assert (Hne : payload <> []) by (destruct payload; [simpl in Hlen; lia | done]).
  destruct c as [w th rd p]. simpl in Hth, Hpc, Hrd. subst th p rd.
  subst res. unfold on_data, enough, deliver, feed_data. cbn [reader r_buffer r_eof app c_pc].
  change (3 + ?n)%nat with (S (S (S n))).
  split_and!.
  - intros ->. rewrite take_0. by rewrite run_suspended by (by apply step_waiting).
  - intros ->. subst wire. unfold compact_frame, be32. cbn [take app].
    erewrite run_resumed; [| apply step_header; done].
    rewrite run_suspended; [done |].
    eapply step_wait_payload; [reflexivity | simpl; lia | done | done].
  - intros Hk.
    assert (Hshort : forall p : list Z, p <> [] -> (length p < 5)%nat ->
      run SF JL (S (S (S (2 * length p))))
        {| c_writer := w; is_thermal := true;
           reader := {| r_buffer := p; r_eof := false |}; c_pc := LoopTop |} st =
      finally {| r_buffer := []; r_eof := false |}
        {| c_writer := w; is_thermal := true;
           reader := {| r_buffer := p; r_eof := false |}; c_pc := LoopTop |}
        (print IncompleteHeader st)).
    { intros p Hp Hl. apply run_to_finally.
      exact (step_short_header SF JL
               {| c_writer := w; is_thermal := true;
                  reader := {| r_buffer := p; r_eof := false |};
                  c_pc := LoopTop |} st p eq_refl eq_refl eq_refl Hp Hl). }
    destruct Hk as [Hk|Hk].
    + unfold at_pc. cbn [c_writer is_thermal]. rewrite Hshort.
      * match goal with |- context [finally ?r ?c ?s] =>
          pose proof (finally_spec r c s) as (? & Hr & ? & ?);
          pose proof (finally_registry r c s) as (? & ?) end.
        split_and!; first [done | by rewrite Hr].
      * subst wire. destruct k; [lia |]. done.
      * rewrite length_take. lia.
    + subst wire. rewrite length_compact_frame in Hk.
      do 5 (destruct k as [|k]; [lia |]).
      unfold compact_frame, be32. cbn [take app].
      erewrite run_resumed; [| apply step_header; done].
      erewrite run_to_finally;
        [| eapply (step_short_payload _ _ _ _ _ (take k payload));
           [reflexivity | simpl ..]].
      * match goal with |- context [finally ?r ?c ?s] =>
          pose proof (finally_spec r c s) as (? & Hr & ? & ?);
          pose proof (finally_registry r c s) as (? & ?) end.
        split_and!; first [done | by rewrite Hr].
      * done.
      * destruct payload, k; simpl in *; try done; lia.
      * rewrite length_take. lia.
  - intros Hk. subst wire. rewrite take_ge by done.
    rewrite (run_whole_frame _ _ _ _ _ can_id payload [])
      by (done || by rewrite app_nil_r).
    rewrite run_suspended by (by apply step_waiting).
    cbn [fst snd]. split_and!; try done.
    + apply forward_raw_clients.
    + apply forward_raw_clients.
    + eexists. split; [apply forward_raw_sent |].
      split_and!; try done.
      * simpl. by apply can_id_of_be32.
      * intros _. change (nth 4 _ 0) with (Z.of_nat (length payload)).
        f_equal. by apply can_id_of_be32.
Qed.

Lemma compact_prefix_behaviour_witness :
  (0 <= 0x123 < 2 ^ 32 /\ (1 <= length [10; 20] <= 255)%nat) /\
  exists f,
    sent (snd (on_data bus_ok no_json (take 7 (compact_frame 0x123 [10; 20]))
                 thermal_connection sample_bridge)) = sent sample_bridge ++ [f] /\
    id f = 0x123 /\ flags f = 0 /\
    data f = {| bv_data := Some [10; 20]; bv_size := 2 |}.
Proof.
  split; [split; [lia | simpl; lia] |].
  pose proof (compact_prefix_behaviour bus_ok no_json thermal_connection
    sample_bridge 0x123 [10; 20] 7 eq_refl eq_refl eq_refl
    ltac:(lia) ltac:(simpl; lia)) as (_ & _ & _ & H).
  destruct (H ltac:(simpl; lia)) as (_ & _ & _ & _ & f & Hs & Hi & Hfl & Hd & _).
  exists f. done.
Defined.

(** The scenario of the compact client: the bytes
    [00 00 01 23 02 0A 14] are forwarded as id 0x123, payload [10, 20],
    dlc 2. *)
Example compact_scenario :
  sent (snd (on_data bus_ok no_json [0; 0; 1; 0x23; 2; 0x0A; 0x14]
               thermal_connection sample_bridge)) =
    [raw_CanFrame 0x123 2 [10; 20]].
Proof. vm_compute. reflexivity. Qed.

(** ** Compact frames longer than 64 bytes *)

(** C3 (the code at the failing input): a compact frame whose length
    byte is 65, followed by its 65 payload bytes, is not rejected: the
    connection stays registered and reading, and one frame with size 65
    and dlc 65 is handed to the transport.  The bridge's own
    [get_dlc_size] reads that dlc as 0 bytes, so the same frame coming
    back from the bus is fanned out without payload, and the JSON branch
    given the same 65 bytes sends 64 of them with dlc 15. *)
Lemma length_65_is_forwarded :
  let res := on_data bus_ok no_json (compact_frame 0x123 (replicate 65 7))
               thermal_connection (fst (accept 0 sample_bridge)) in
  c_pc (fst res) = LoopTop /\
  (0%nat ∈ clients (snd res)) /\
  sent (snd res) = [raw_CanFrame 0x123 65 (replicate 65 7)] /\
  dlc (raw_CanFrame 0x123 65 (replicate 65 7)) = 65 /\
  bv_size (data (raw_CanFrame 0x123 65 (replicate 65 7))) = 65 /\
  get_dlc_size 65 = 0 /\
  raw_frame_of (raw_CanFrame 0x123 65 (replicate 65 7)) =
    Some [0x00; 0x00; 0x01; 0x23; 0x00] /\
  dlc (json_frame 0x123 (replicate 65 7)) = 15 /\
  bv_size (data (json_frame 0x123 (replicate 65 7))) = 64.
Proof.
  vm_compute. split_and!; reflexivity.
Qed.

(** The compact branch on any length byte [L] above 64 (and at most 255):
    once the [L] payload bytes are buffered the frame is decoded and
    handed to the transport with size [L] and dlc [L]; the connection
    keeps reading and stays registered. *)
Theorem compact_length_above_64
    (SF : list CanFrame -> CanFrame -> Z) (JL : list Z -> option json)
    (c : connection) (st : bridge) (can_id : Z) (payload : list Z) :
  is_thermal c = true -> c_pc c = LoopTop ->
  reader c = {| r_buffer := []; r_eof := false |} ->
  0 <= can_id < 2 ^ 32 -> (64 < length payload <= 255)%nat ->
  let L := Z.of_nat (length payload) in
  let res := on_data SF JL (compact_frame can_id payload) c st in
  nth 4 (compact_frame can_id payload) 0 = L /\
  c_pc (fst res) = LoopTop /\
  clients (snd res) = clients st /\
  writers (snd res) = writers st /\
  sent (snd res) = sent st ++ [raw_CanFrame can_id L payload].
Proof.
  intros Hth Hpc Hrd Hid Hlen L res.
  assert (Hne : payload <> []) by (destruct payload; [simpl in Hlen; lia | done]).
  destruct c as [w th rd p]. simpl in Hth, Hpc, Hrd. subst th p rd.
  subst res. unfold on_data, enough, deliver, feed_data.
  cbn [reader r_buffer r_eof app c_pc].
  change (3 + ?n)%nat with (S (S (S n))).
  rewrite (run_whole_frame _ _ _ _ _ can_id payload [])
    by (done || by rewrite app_nil_r).
  rewrite run_suspended by (by apply step_waiting).
  cbn [fst snd]. split_and!; try done.
  - apply forward_raw_clients.
  - apply forward_raw_clients.
  - rewrite forward_raw_sent. do 2 f_equal.
    change (nth 4 _ 0) with L. f_equal. by apply can_id_of_be32.
Qed.

Lemma compact_length_above_64_witness :
  (0 <= 0x123 < 2 ^ 32 /\ (64 < length (replicate 65 7) <= 255)%nat) /\
  sent (snd (on_data bus_failing no_json (compact_frame 0x123 (replicate 65 7))
          thermal_connection sample_bridge)) =
    sent sample_bridge ++ [raw_CanFrame 0x123 (Z.of_nat (length (replicate 65 7)))
                             (replicate 65 7)].
Proof.
  split; [split; [lia | simpl; lia] |].
  apply (compact_length_above_64 bus_failing no_json thermal_connection
    sample_bridge 0x123 (replicate 65 7) eq_refl eq_refl eq_refl
    ltac:(lia) ltac:(simpl; lia)).
Defined.

(** ** Fan-out *)

(** C4: for every bus frame and every registry, the frame is packed once
    as [4-byte big-endian id][1-byte length][payload bytes] and the same
    bytes are appended to the stream of every registered client whose
    write goes through, whatever its peer address (protocol variant).
    The payload is the first min(get_dlc_size(dlc), size) bytes of the
    buffer (none for a NULL pointer), at most 64 byte values; the length
    byte is the number of payload bytes that follow it, and the first
    four bytes read back as the id.  A frame whose dlc and size agree with
    its buffer goes out with its whole payload, and id=0x999 with payload
    [1,2,3] goes out as [00 00 09 99 03 01 02 03]. *)
Theorem fanout_compact_to_all (f : CanFrame) (st : bridge) :
  frame_in_range f ->
  exists raw payload,
    raw_frame_of f = Some raw /\
    raw = be32 (id f) ++ [data_size_of f] ++ data_array_of f /\
    (forall buf, bv_data (data f) = Some buf ->
       get_dlc_size (dlc f) = Z.of_nat (length buf) ->
       bv_size (data f) = Z.of_nat (length buf) ->
       raw = compact_frame (id f) buf) /\
    (forall w writer, w ∈ clients st -> writers st !! w = Some writer ->
       w_broken writer = false ->
       writers (handle_can_message f st) !! w = Some (writer_write raw writer)) /\
    clients (handle_can_message f st) = clients st /\
    (id f = 0x999 -> bv_data (data f) = Some [1; 2; 3] -> dlc f = 3 ->
       bv_size (data f) = 3 -> raw = [0x00; 0x00; 0x09; 0x99; 0x03; 0x01; 0x02; 0x03]) /\
    raw = compact_frame (id f) payload /\
    length raw = (5 + length payload)%nat /\
    can_id_of raw = id f /\
    nth 4 raw 0 = Z.of_nat (length payload) /\
    drop 5 raw = payload /\
    (length payload <= 64)%nat /\ Forall is_byte payload /\
    (bv_data (data f) = None -> payload = []) /\
    (forall buf, bv_data (data f) = Some buf ->
       bv_size (data f) <= Z.of_nat (length buf) ->
       payload =
         take (Z.to_nat (Z.min (get_dlc_size (dlc f)) (bv_size (data f)))) buf).
Proof.
  intros Hf. exists (be32 (id f) ++ [data_size_of f] ++ data_array_of f),
    (data_array_of f).
  split; [by apply raw_frame_in_range |].
  split; [done |].
  pose proof (handle_can_message_spec f st Hf) as (Hc & _ & Hw & _).
  pose proof (length_data_array f Hf) as Hlen.
  pose proof (data_size_range f Hf) as Hr.
  split_and!.
  - intros buf. apply raw_frame_consistent.
  - intros w writer Hin Hlk Hb. rewrite Hw, decide_True, Hlk by done.
    simpl. unfold delivered. by rewrite Hb.
  - done.
  - intros Hid Hbuf Hdlc Hsize.
    rewrite (raw_frame_consistent f [1; 2; 3]), Hid; try done.
    by rewrite Hdlc.
  - unfold compact_frame. by rewrite Hlen.
  - rewrite !length_app. simpl. lia.
  - apply can_id_of_be32, Hf.
  - by rewrite <- Hlen.
  - reflexivity.
  - lia.
  - by apply data_array_bytes.
  - intros Hnull. unfold data_array_of. by rewrite Hnull.
  - intros buf Hbuf Hsize. by apply data_array_take.
Qed.

Lemma fanout_compact_to_all_witness :
  frame_in_range frame_999 /\
  exists raw, raw_frame_of frame_999 = Some raw /\
    writers (handle_can_message frame_999 fanout_bridge) !! 1%nat =
      Some {| w_peer := Some "127.0.0.1"; w_out := raw;
              w_broken := false; w_closed := false |} /\
    raw = [0x00; 0x00; 0x09; 0x99; 0x03; 0x01; 0x02; 0x03].
Proof.
  split; [exact frame_999_in_range |].
  destruct (fanout_compact_to_all frame_999 fanout_bridge frame_999_in_range)
    as (raw & payload & Hraw & _ & _ & Hw & _ & Hex & _).
  exists raw. split; [exact Hraw |]. split.
  - apply (Hw 1%nat {| w_peer := Some "127.0.0.1"; w_out := [];
                       w_broken := false; w_closed := false |});
      vm_compute; reflexivity.
  - apply Hex; reflexivity.
Defined.

(** The fan-out scenario on the sample registry: the thermal client and
    the JSON client receive the same eight bytes. *)
Example fanout_scenario :
  w_out <$> writers (handle_can_message frame_999 fanout_bridge) !! 0%nat =
    Some [0x00; 0x00; 0x09; 0x99; 0x03; 0x01; 0x02; 0x03] /\
  w_out <$> writers (handle_can_message frame_999 fanout_bridge) !! 1%nat =
    Some [0x00; 0x00; 0x09; 0x99; 0x03; 0x01; 0x02; 0x03].
Proof. split; vm_compute; reflexivity. Qed.

(** C5 (as stated, refuted): after a fan-out in which the write to client
    2 raised, client 2 is still registered and its writer is not closed. *)
Lemma failed_write_leaves_client_open :
  let st' := handle_can_message frame_999 fanout_bridge in
  (2%nat ∈ clients st') /\
  w_closed <$> writers st' !! 2%nat = Some false /\
  (exists l1 l2, log st' = l1 ++ WriteError :: l2).
Proof.
  split_and!.
  - vm_compute. reflexivity.
  - vm_compute. reflexivity.
  - assert (H : WriteError ∈ log (handle_can_message frame_999 fanout_bridge)).
    { pose proof (handle_can_message_spec frame_999 fanout_bridge
                    frame_999_in_range) as (_ & _ & _ & Herr).
      apply (Herr 2%nat {| w_peer := Some "127.0.0.1"; w_out := [];
                           w_broken := true; w_closed := false |});
        vm_compute; reflexivity. }
    by apply list_elem_of_split in H.
Qed.

(** C5 (amended): when a fan-out write to one registered client raises,
    the failure is reported and that client is left as it was (still
    registered, not closed, nothing written to it); the registry and the
    bus side are unchanged, and every other registered client whose write
    goes through still receives the frame. *)
Theorem fanout_write_failure_isolated (f : CanFrame) (st : bridge) (w : nat)
    (writer : StreamWriter) :
  frame_in_range f ->
  w ∈ clients st -> writers st !! w = Some writer -> w_broken writer = true ->
  let st' := handle_can_message f st in
  WriteError ∈ log st' /\
  clients st' = clients st /\
  writers st' !! w = Some writer /\
  sent st' = sent st /\
  (forall w' writer', w' ∈ clients st -> writers st !! w' = Some writer' ->
     w_broken writer' = false ->
     exists raw, raw_frame_of f = Some raw /\
       writers st' !! w' = Some (writer_write raw writer')).
Proof.
  intros Hf Hin Hlk Hb st'. subst st'.
  pose proof (handle_can_message_spec f st Hf) as (Hc & Hs & Hw & Herr).
  split_and!; try done.
  - by apply (Herr w writer).
  - rewrite Hw, decide_True, Hlk by done. simpl. unfold delivered. by rewrite Hb.
  - intros w' writer' Hin' Hlk' Hb'. eexists.
    split; [by apply raw_frame_in_range |].
    rewrite Hw, decide_True, Hlk' by done. simpl. unfold delivered. by rewrite Hb'.
Qed.

Lemma fanout_write_failure_isolated_witness :
  frame_in_range frame_999 /\ (2%nat ∈ clients fanout_bridge) /\
  (2%nat ∈ clients (handle_can_message frame_999 fanout_bridge)) /\
  writers (handle_can_message frame_999 fanout_bridge) !! 2%nat =
    Some {| w_peer := Some "127.0.0.1"; w_out := [];
            w_broken := true; w_closed := false |}.
Proof.
  assert (Hin : 2%nat ∈ clients fanout_bridge) by (vm_compute; reflexivity).
  split; [exact frame_999_in_range |]. split; [exact Hin |].
  destruct (fanout_write_failure_isolated frame_999 fanout_bridge 2%nat
    {| w_peer := Some "127.0.0.1"; w_out := []; w_broken := true;
       w_closed := false |} frame_999_in_range Hin eq_refl eq_refl)
    as (_ & Hc & Hw & _).
  split; [by rewrite Hc | exact Hw].
Defined.

(** C10: for every bus frame, the size used for fan-out is
    [min(get_dlc_size(dlc), data.size)], or 0 when the data pointer is
    NULL; the raw frame is the 4 id bytes, that size as the length byte,
    and exactly that many payload bytes, also when dlc and buffer size
    disagree; these are the bytes each client is sent. *)
Theorem fanout_length_matches_payload (f : CanFrame) :
  frame_in_range f ->
  data_size_of f =
    match bv_data (data f) with
    | Some _ => Z.min (get_dlc_size (dlc f)) (bv_size (data f))
    | None => 0
    end /\
  exists payload,
    raw_frame_of f = Some (be32 (id f) ++ [data_size_of f] ++ payload) /\
    Z.of_nat (length payload) = data_size_of f /\
    (forall st w writer, w ∈ clients st -> writers st !! w = Some writer ->
       w_broken writer = false ->
       w_out <$> writers (handle_can_message f st) !! w =
         Some (w_out writer ++ be32 (id f) ++ [data_size_of f] ++ payload)).
Proof.
  intros Hf. split; [done |]. exists (data_array_of f).
  split; [by apply raw_frame_in_range |].
  split; [by apply length_data_array |].
  intros st w writer Hin Hlk Hb.
  pose proof (handle_can_message_spec f st Hf) as (_ & _ & Hw & _).
  rewrite Hw, decide_True, Hlk by done. simpl. unfold delivered. by rewrite Hb.
Qed.

Lemma fanout_length_matches_payload_witness :
  frame_in_range frame_short_dlc /\
  data_size_of frame_short_dlc = 2 /\
  exists payload,
    raw_frame_of frame_short_dlc =
      Some (be32 0x321 ++ [data_size_of frame_short_dlc] ++ payload) /\
    Z.of_nat (length payload) = data_size_of frame_short_dlc.
Proof.
  split; [exact frame_short_dlc_in_range |]. split; [reflexivity |].
  destruct (fanout_length_matches_payload frame_short_dlc
              frame_short_dlc_in_range) as (_ & payload & Hraw & Hlen & _).
  exists payload. split; [exact Hraw | exact Hlen].
Defined.

Example short_dlc_raw_frame :
  raw_frame_of frame_short_dlc = Some [0; 0; 3; 0x21; 2; 7; 8].
Proof. vm_compute. reflexivity. Qed.

(** ** The JSON path: truncation and other message types *)

(** C6: a 'can' message whose data list has more than 64 byte entries is
    forwarded as one frame with payload size 64 (the first 64 entries) and
    dlc 15, the truncation warning is printed, and the handler goes back
    to the top of its loop with the registry unchanged. *)
Theorem json_truncation_reported
    (SF : list CanFrame -> CanFrame -> Z) (JL : list Z -> option json)
    (c : connection) (st : bridge) (msg_length : Z) (msg_bytes : list Z)
    (r : StreamReader) (kv : gmap string json) (msg_id : Z) (entries : list Z) :
  c_pc c = AwaitMessage msg_length ->
  read msg_length (reader c) = Ready msg_bytes r -> msg_bytes <> [] ->
  JL msg_bytes = Some (JDict kv) ->
  kv !! "type" = Some (JStr "can") -> kv !! "id" = Some (JInt msg_id) ->
  kv !! "data" = Some (JList (JInt <$> entries)) -> Forall is_byte entries ->
  (64 < length entries)%nat ->
  exists st' f,
    step SF JL c st = Some (at_pc LoopTop r c, st') /\
    sent st' = sent st ++ [f] /\
    bv_data (data f) = Some (take 64 entries) /\
    length (take 64 entries) = 64%nat /\
    bv_size (data f) = 64 /\ dlc f = 15 /\
    TruncationWarning ∈ log st' /\
    clients st' = clients st /\ writers st' = writers st.
Proof.
  intros Hpc Hread Hne Hmsg Hty Hid Hdata Hbytes Hlen.
  destruct (forward_json_can SF kv msg_id entries st Hty Hid Hdata Hbytes)
    as (st' & Hfw & Hsent & Hc & Hw & Hlog).
  exists st', (json_frame msg_id entries).
  assert (Hset : set_dlc (Z.of_nat (length entries)) = (15, true)).
  { unfold set_dlc.
    repeat match goal with
           | |- context [?a <=? ?b] => destruct (Z.leb_spec a b); [lia |]
           end.
    destruct (Z.gtb_spec (Z.of_nat (length entries)) 64); [done | lia]. }
  split; [by eapply step_message |]. split; [done |].
  unfold json_frame in *. rewrite Hset in *. cbn [snd] in Hlog.
  split_and!; try done.
  - rewrite length_take. lia.
  - rewrite Hlog. apply elem_of_app. right. apply elem_of_app. right.
    apply elem_of_app. left. apply list_elem_of_here.
Qed.

Lemma json_truncation_reported_witness :
  (64 < length (replicate 100 7))%nat /\
  exists st' f,
    step bus_ok (parses_as (can_message 0x123 (replicate 100 7)))
      (json_pending [123; 125]) sample_bridge =
      Some (at_pc LoopTop {| r_buffer := []; r_eof := false |}
              (json_pending [123; 125]), st') /\
    sent st' = sent sample_bridge ++ [f] /\
    bv_size (data f) = 64 /\ dlc f = 15.
Proof.
  split; [simpl; lia |].
  destruct (json_truncation_reported bus_ok
    (parses_as (can_message 0x123 (replicate 100 7)))
    (json_pending [123; 125]) sample_bridge 2 [123; 125]
    {| r_buffer := []; r_eof := false |}
    {[ "type" := JStr "can"; "id" := JInt 0x123;
       "data" := JList (JInt <$> replicate 100 7) ]}
    0x123 (replicate 100 7) eq_refl eq_refl ltac:(discriminate) eq_refl
    eq_refl eq_refl eq_refl
    ltac:(apply Forall_replicate; unfold is_byte; lia)
    ltac:(simpl; lia))
    as (st' & f & Hstep & Hsent & _ & _ & Hsize & Hdlc & _).
  exists st', f. split_and!; assumption.
Defined.

(** The 100-entry message on the sample bridge, evaluated. *)
Example truncation_scenario :
  let st' := fst (forward_json bus_ok (can_message 0x123 (replicate 100 7))
                    sample_bridge) in
  sent st' = [json_CanFrame 0x123 15 (replicate 64 7) 64] /\
  log st' = [ReceivedJson 0x123; Converting 0x123 (replicate 100 7);
             TruncationWarning; Sending 0x123 64; SendOk 0x123 64].
Proof. split; vm_compute; reflexivity. Qed.

(** C7: a parsed record whose type tag is present and is not 'can' is
    skipped: the step returns to the top of the loop with the bridge state
    unchanged (nothing forwarded, nothing reported, nobody closed). *)
Theorem json_other_type_skipped
    (SF : list CanFrame -> CanFrame -> Z) (JL : list Z -> option json)
    (c : connection) (st : bridge) (msg_length : Z) (msg_bytes : list Z)
    (r : StreamReader) (kv : gmap string json) (ty : json) :
  c_pc c = AwaitMessage msg_length ->
  read msg_length (reader c) = Ready msg_bytes r -> msg_bytes <> [] ->
  JL msg_bytes = Some (JDict kv) ->
  kv !! "type" = Some ty -> ty <> JStr "can" ->
  step SF JL c st = Some (at_pc LoopTop r c, st) /\
  c_pc (at_pc LoopTop r c) = LoopTop.
Proof.
  intros Hpc Hread Hne Hmsg Hty Hnot. split; [| done].
  eapply step_message; try done. by eapply forward_json_other.
Qed.

Lemma json_other_type_skipped_witness :
  JStr "status" <> JStr "can" /\
  step bus_ok (parses_as status_message) (json_pending [123; 125])
    sample_bridge =
    Some (at_pc LoopTop {| r_buffer := []; r_eof := false |}
            (json_pending [123; 125]), sample_bridge).
Proof.
  split; [discriminate |].
  apply (json_other_type_skipped bus_ok (parses_as status_message)
    (json_pending [123; 125]) sample_bridge 2 [123; 125]
    {| r_buffer := []; r_eof := false |}
    {[ "type" := JStr "status"; "id" := JInt 1 ]} (JStr "status")
    eq_refl eq_refl ltac:(discriminate) eq_refl eq_refl ltac:(discriminate)).
Defined.

(** ** Transport failures *)

(** C8: when [SendFrame] returns a non-zero status for the frame being
    forwarded, on the compact path and on the JSON path alike, the frame
    was handed to the transport exactly once (no second attempt), the
    failure is the last thing reported, the registry and the writers are
    untouched (nobody is closed), and the handler is back at the top of
    its read loop. *)
Theorem bus_send_failure_not_fatal
    (SF : list CanFrame -> CanFrame -> Z) (JL : list Z -> option json)
    (c : connection) (st : bridge) :
  (forall (header data_bytes : list Z) (r : StreamReader),
     c_pc c = AwaitData header ->
     read (nth 4 header 0) (reader c) = Ready data_bytes r ->
     data_bytes <> [] -> nth 4 header 0 <= Z.of_nat (length data_bytes) ->
     let frame := raw_CanFrame (can_id_of header) (nth 4 header 0) data_bytes in
     SF (sent st) frame <> 0 ->
     exists st' reports,
       step SF JL c st = Some (at_pc LoopTop r c, st') /\
       sent st' = sent st ++ [frame] /\
       log st' = log st ++ reports ++ [SendFailedRaw (SF (sent st) frame)] /\
       clients st' = clients st /\ writers st' = writers st) /\
  (forall (msg_length : Z) (msg_bytes : list Z) (r : StreamReader)
          (kv : gmap string json) (msg_id : Z) (entries : list Z),
     c_pc c = AwaitMessage msg_length ->
     read msg_length (reader c) = Ready msg_bytes r -> msg_bytes <> [] ->
     JL msg_bytes = Some (JDict kv) ->
     kv !! "type" = Some (JStr "can") -> kv !! "id" = Some (JInt msg_id) ->
     kv !! "data" = Some (JList (JInt <$> entries)) -> Forall is_byte entries ->
     let frame := json_frame msg_id entries in
     SF (sent st) frame <> 0 ->
     exists st' reports,
       step SF JL c st = Some (at_pc LoopTop r c, st') /\
       sent st' = sent st ++ [frame] /\
       log st' = log st ++ reports ++ [SendFailed (SF (sent st) frame)] /\
       clients st' = clients st /\ writers st' = writers st).
Proof.
  split.
  - intros header data_bytes r Hpc Hread Hne Hlen frame Herr.
    apply Z.eqb_neq in Herr.
    exists (forward_raw SF header data_bytes st),
      [ReceivedRaw (can_id_of header) (nth 4 header 0);
       ForwardingRaw (can_id_of header) (nth 4 header 0)].
    split; [by apply step_data_read |].
    split; [apply forward_raw_sent |].
    split; [| apply forward_raw_clients].
    rewrite forward_raw_log. cbv zeta. fold frame. by rewrite Herr.
  - intros msg_length msg_bytes r kv msg_id entries Hpc Hread Hne Hmsg Hty Hid
      Hdata Hbytes frame Herr.
    apply Z.eqb_neq in Herr.
    destruct (forward_json_can SF kv msg_id entries st Hty Hid Hdata Hbytes)
      as (st' & Hfw & Hsent & Hc & Hw & Hlog).
    fold frame in Hsent, Hlog. rewrite Herr in Hlog.
    exists st',
      ([ReceivedJson msg_id; Converting (msg_id `mod` 2 ^ 32) entries] ++
       (if snd (set_dlc (Z.of_nat (length entries)))
        then [TruncationWarning] else []) ++
       [Sending (id frame) (bv_size (data frame))]).
    split; [by eapply step_message |].
    split; [done |]. split; [| done].
    rewrite Hlog. by rewrite <- !app_assoc.
Qed.

Lemma bus_send_failure_not_fatal_witness :
  bus_failing [] (raw_CanFrame 0x123 2 [10; 20]) <> 0 /\
  (exists st' reports,
     step bus_failing no_json thermal_pending sample_bridge =
       Some (at_pc LoopTop {| r_buffer := []; r_eof := false |} thermal_pending,
             st') /\
     sent st' = [raw_CanFrame 0x123 2 [10; 20]] /\
     log st' = reports ++ [SendFailedRaw 1] /\
     clients st' = ∅ /\ writers st' = sample_writers) /\
  (exists st' reports,
     step bus_failing (parses_as (can_message 0x123 [10; 20]))
       (json_pending [123; 125]) sample_bridge =
       Some (at_pc LoopTop {| r_buffer := []; r_eof := false |}
               (json_pending [123; 125]), st') /\
     sent st' = [json_frame 0x123 [10; 20]] /\
     log st' = reports ++ [SendFailed 1] /\
     clients st' = ∅ /\ writers st' = sample_writers).
Proof.
  split; [discriminate |].
  destruct (bus_send_failure_not_fatal bus_failing no_json thermal_pending
              sample_bridge) as [Hraw _].
  destruct (bus_send_failure_not_fatal bus_failing
              (parses_as (can_message 0x123 [10; 20]))
              (json_pending [123; 125]) sample_bridge) as [_ Hjson].
  split.
  - apply (Hraw [0; 0; 1; 0x23; 2] [10; 20] {| r_buffer := []; r_eof := false |}
             eq_refl eq_refl ltac:(discriminate) ltac:(simpl; lia)
             ltac:(discriminate)).
  - apply (Hjson 2 [123; 125] {| r_buffer := []; r_eof := false |}
             {[ "type" := JStr "can"; "id" := JInt 0x123;
                "data" := JList (JInt <$> [10; 20]) ]} 0x123 [10; 20]
             eq_refl eq_refl ltac:(discriminate) eq_refl eq_refl eq_refl eq_refl
             ltac:(repeat (constructor; [unfold is_byte; lia |]); constructor)
             ltac:(discriminate)).
Defined.

(** ** Flags *)

(** C9: whatever bytes arrive and whatever the parser and the transport
    answer, every frame the handler hands to the transport, on the compact
    path and on the JSON path, has [flags = 0]: the frames added to [sent]
    by any run of the handler, after any chunk and after EOF, all have
    flags 0, as have the two frame constructors. *)
Theorem forwarded_flags_zero
    (SF : list CanFrame -> CanFrame -> Z) (JL : list Z -> option json)
    (c : connection) (st : bridge) :
  (forall fuel, exists new,
     sent (snd (run SF JL fuel c st)) = sent st ++ new /\
     Forall (fun f => flags f = 0) new) /\
  (forall chunk, exists new,
     sent (snd (on_data SF JL chunk c st)) = sent st ++ new /\
     Forall (fun f => flags f = 0) new) /\
  (exists new,
     sent (snd (on_eof SF JL c st)) = sent st ++ new /\
     Forall (fun f => flags f = 0) new) /\
  (forall can_id data_len data_array,
     flags (raw_CanFrame can_id data_len data_array) = 0) /\
  (forall frame_id frame_dlc original_data data_len,
     flags (json_CanFrame frame_id frame_dlc original_data data_len) = 0).
Proof.
  split_and!; try done.
  - intros fuel. apply run_sent.
  - intros chunk. apply run_sent.
  - apply run_sent.
Qed.

(** Two frames in one chunk on the compact path, and one JSON frame with a
    flags-like field in the message: all forwarded with flags 0. *)
Example flags_scenario :
  flags <$> sent (snd (on_data bus_ok no_json
                         (compact_frame 0x123 [10; 20] ++ compact_frame 0x7FF [1])
                         thermal_connection sample_bridge)) = [0; 0] /\
  flags <$> sent (fst (forward_json bus_ok
                         (JDict {[ "type" := JStr "can"; "id" := JInt 5;
                                   "flags" := JInt 7 ]})
                         sample_bridge)) = [0].
Proof. split; vm_compute; reflexivity. Qed.

(** A compact frame with an empty payload: [read(0)] returns [b''] at once,
    which the handler takes for a missing payload. *)
Example empty_payload_closes :
  let res := on_data bus_ok no_json (compact_frame 0x123 [])
               thermal_connection (fst (accept 0 sample_bridge)) in
  c_pc (fst res) = Finished /\ sent (snd res) = [] /\
  log (snd res) = [NewConnection; IncompleteData; ConnectionClosed].
Proof. vm_compute. split_and!; reflexivity. Qed.

(** ** Further properties of the length codes *)

(** X1: the sixteen codes 0..15 and the sixteen bucket sizes correspond
    one to one: coding the size of a code gives the code back, and
    decoding the code of a bucket size gives the size back. *)
Theorem codes_and_buckets_correspond (d : Z) :
  0 <= d <= 15 ->
  get_dlc_size d ∈ buckets /\
  encode_length (get_dlc_size d) = d /\
  (forall b, b ∈ buckets -> get_dlc_size (encode_length b) = b).
Proof.
  intros Hd. split_and!.
  - assert (H : d = 0 \/ d = 1 \/ d = 2 \/ d = 3 \/ d = 4 \/ d = 5 \/ d = 6 \/
                d = 7 \/ d = 8 \/ d = 9 \/ d = 10 \/ d = 11 \/ d = 12 \/
                d = 13 \/ d = 14 \/ d = 15) by lia.
    apply elem_of_buckets.
    repeat (destruct H as [-> | H]; [vm_compute; intuition congruence |]).
    subst. vm_compute. intuition congruence.
  - assert (H : d = 0 \/ d = 1 \/ d = 2 \/ d = 3 \/ d = 4 \/ d = 5 \/ d = 6 \/
                d = 7 \/ d = 8 \/ d = 9 \/ d = 10 \/ d = 11 \/ d = 12 \/
                d = 13 \/ d = 14 \/ d = 15) by lia.
    repeat (destruct H as [-> | H]; [reflexivity |]). by subst.
  - intros b Hb. unfold buckets in Hb.
    repeat (apply elem_of_cons in Hb as [-> | Hb]; [reflexivity |]).
    by apply elem_of_nil in Hb.
Qed.

Lemma codes_and_buckets_correspond_witness :
  0 <= 13 <= 15 /\ encode_length (get_dlc_size 13) = 13.
Proof.
  split; [lia |]. apply (codes_and_buckets_correspond 13). lia.
Defined.

Lemma set_dlc_spec (n : Z) :
  0 <= n ->
  0 <= fst (set_dlc n) <= 15 /\
  (snd (set_dlc n) = true -> 64 < n /\ fst (set_dlc n) = 15) /\
  (snd (set_dlc n) = false -> n <= get_dlc_size (fst (set_dlc n)) <= 64).
Proof.
  intros Hn. unfold set_dlc.
  repeat match goal with
         | |- context [?a <=? ?b] => destruct (Z.leb_spec a b)
         end; cbn [fst snd]; unfold get_dlc_size;
    repeat match goal with
           | |- context [?a <=? ?b] => destruct (Z.leb_spec a b); try lia
           | |- context [?a >? ?b] => destruct (Z.gtb_spec a b); try lia
           end; simpl; split_and!; try lia; try done; intros; lia.
Qed.

(** ** Frames the handler forwards *)

Lemma mapM_byte_of_item (l : list json) (bs : list Z) :
  mapM byte_of_item l = Ok bs -> Forall is_byte bs.
Proof.
  revert bs. induction l as [|v l IH]; intros bs.
  - intros [= <-]. constructor.
  - cbn [mapM].
    destruct (byte_of_item v) as [b|e] eqn:Hv; [| done]. cbn [mbind result_bind].
    destruct (mapM byte_of_item l) as [bs'|e] eqn:Hl; [| done].
    intros [= <-]. constructor; [| by apply IH].
    destruct v; try done; cbn [byte_of_item] in Hv.
    + injection Hv as <-. destruct b0; unfold is_byte; simpl; lia.
    + destruct (Z.leb_spec 0 n), (Z.leb_spec n 255); try done.
      injection Hv as <-. unfold is_byte. lia.
Qed.

Lemma to_bytes_bytes (v : json) (bs : list Z) :
  to_bytes v = Ok bs -> Forall is_byte bs.
Proof.
  destruct v; cbn [to_bytes]; try done.
  - intros [= <-]. apply Forall_replicate. unfold is_byte. lia.
  - case_match; [done |]. case_match; [done |]. intros [= <-].
    apply Forall_replicate. unfold is_byte. lia.
  - apply mapM_byte_of_item.
  - case_decide; [| done]. intros [= <-]. constructor.
Qed.

(** X2: whatever the parsed message is, the JSON branch hands at most one
    frame to the transport, and that frame is well formed: its size field
    is the length of its buffer, at most 64 byte values, its id fits 32
    bits, its flags are 0, its dlc is a code in 0..15 whose decoded size
    covers the payload. *)
Theorem json_forwards_well_formed
    (SF : list CanFrame -> CanFrame -> Z) (msg : json) (st : bridge) :
  exists new,
    sent (fst (forward_json SF msg st)) = sent st ++ new /\
    (length new <= 1)%nat /\
    Forall well_formed_frame new.
Proof.
  unfold forward_json.
  destruct (getitem msg "type") as [ty|e];
    [| exists []; rewrite app_nil_r; by repeat constructor].
  destruct (is_can ty);
    [| exists []; rewrite app_nil_r; by repeat constructor].
  destruct (getitem msg "id" ≫= format_x) as [msg_id|e];
    [| exists []; rewrite app_nil_r; by repeat constructor].
  destruct (to_bytes (dict_get msg "data" (JList []))) as [bs|e] eqn:Hbs;
    [| exists []; rewrite app_nil_r; by repeat constructor].
  apply to_bytes_bytes in Hbs.
  pose proof (set_dlc_spec (Z.of_nat (length bs)) ltac:(lia)) as (Hd & Ht & Hf).
  destruct (set_dlc (Z.of_nat (length bs))) as [frame_dlc too_long].
  cbn [fst snd] in *. unfold send_frame.
  destruct too_long.
  - destruct (Ht eq_refl) as [Hlen ->].
    eexists [_]. split; [case_match; cbn; reflexivity |].
    split; [simpl; lia |]. constructor; [| constructor].
    exists (take 64 bs). cbn. split_and!; try done.
    + rewrite length_take. lia.
    + by apply Forall_take.
    + apply Z.mod_pos_bound. lia.
    + apply Z.mod_pos_bound. lia.
    + rewrite length_take. lia.
  - specialize (Hf eq_refl).
    eexists [_]. split; [case_match; cbn; reflexivity |].
    split; [simpl; lia |]. constructor; [| constructor].
    exists bs. cbn. split_and!; try done; try lia.
    + apply Z.mod_pos_bound. lia.
    + apply Z.mod_pos_bound. lia.
Qed.

Section HandlerInvariants.

Context (SF : list CanFrame -> CanFrame -> Z).
Context (JL : list Z -> option json).

Lemma read_at_most (n : Z) (r r' : StreamReader) (got : list Z) :
  read n r = Ready got r' -> (length got <= Z.to_nat n)%nat.
Proof.
  unfold read. destruct (n =? 0); [intros [= <- <-]; simpl; lia |].
  destruct (r_buffer r) as [|b buf].
  - destruct (r_eof r); [| done]. intros [= <- <-]. simpl. lia.
  - intros [= <- <-]. rewrite length_take. lia.
Qed.

Lemma read_keeps_eof (n : Z) (r r' : StreamReader) (got : list Z) :
  read n r = Ready got r' -> r_eof r' = r_eof r.
Proof.
  unfold read. destruct (n =? 0); [by intros [= <- <-] |].
  destruct (r_buffer r); [destruct (r_eof r) eqn:He; [| done] |];
    intros [= <- <-]; by rewrite ?He.
Qed.

(** One step of a thermal connection: it stays thermal and off the JSON
    positions, and what it forwards is tagged with its own length. *)
Lemma thermal_step (c c' : connection) (st st' : bridge) :
  is_thermal c = true -> (forall n, c_pc c <> AwaitMessage n) ->
  step SF JL c st = Some (c', st') ->
  is_thermal c' = true /\ (forall n, c_pc c' <> AwaitMessage n) /\
  exists new, sent st' = sent st ++ new /\ Forall length_tagged_frame new.
Proof.
  intros Hth Hpc. unfold step, finally. rewrite Hth.
  destruct (c_pc c) as [|header|n|] eqn:Hc; [| | by destruct (Hpc n) | done].
  - destruct (read 5 (reader c)) as [|header r]; [done |].
    case_match; intros [= <- <-]; cbn; (split; [done |]); (split; [done |]);
      exists []; by rewrite app_nil_r.
  - destruct (read (nth 4 header 0) (reader c)) as [|data_bytes r] eqn:Hread;
      [done |].
    case_match eqn:Hchk; intros [= <- <-]; cbn [is_thermal at_pc c_pc];
      (split; [done |]); (split; [done |]).
    + exists []. cbn. by rewrite app_nil_r.
    + eexists [_]. split; [apply forward_raw_sent |].
      constructor; [| constructor].
      apply orb_false_elim in Hchk as [Hne Hlen].
      apply bool_decide_eq_false in Hne. apply Z.ltb_ge in Hlen.
      apply read_at_most in Hread.
      assert (length data_bytes <> 0%nat) by (by destruct data_bytes).
      exists data_bytes. cbn. split_and!; try done; lia.
Qed.

End HandlerInvariants.

(** X3: on a compact-protocol connection, whatever bytes arrive, every
    frame handed to the transport carries a non-empty buffer whose length
    equals both its size field and its dlc: the length byte of the wire
    frame is copied to both, and a frame is only forwarded once exactly
    that many bytes were read. *)
Theorem compact_forwards_length_tagged
    (SF : list CanFrame -> CanFrame -> Z) (JL : list Z -> option json)
    (fuel : nat) (c : connection) (st : bridge) :
  is_thermal c = true -> (forall n, c_pc c <> AwaitMessage n) ->
  exists new,
    sent (snd (run SF JL fuel c st)) = sent st ++ new /\
    Forall length_tagged_frame new.
Proof.
  revert c st. induction fuel as [|fuel IH]; intros c st Hth Hpc; cbn [run].
  - exists []. split; [by rewrite app_nil_r | constructor].
  - destruct (step SF JL c st) as [[c' st']|] eqn:Hstep.
    + destruct (thermal_step SF JL _ _ _ _ Hth Hpc Hstep)
        as (Hth' & Hpc' & n1 & Hs1 & Hf1).
      destruct (IH c' st' Hth' Hpc') as (n2 & Hs2 & Hf2).
      exists (n1 ++ n2). split; [by rewrite Hs2, Hs1, app_assoc |].
      by apply Forall_app.
    + exists []. split; [by rewrite app_nil_r | constructor].
Qed.

Lemma compact_forwards_length_tagged_witness :
  exists new,
    sent (snd (run bus_ok no_json 5
                 (deliver (compact_frame 0x123 [10; 20]) thermal_connection)
                 sample_bridge)) = sent sample_bridge ++ new /\
    Forall length_tagged_frame new.
Proof.
  apply (compact_forwards_length_tagged bus_ok no_json 5
           (deliver (compact_frame 0x123 [10; 20]) thermal_connection)
           sample_bridge eq_refl).
  intros n. discriminate.
Defined.

(** ** The registry under the connection handler *)

Section HandlerRegistry.

Context (SF : list CanFrame -> CanFrame -> Z).
Context (JL : list Z -> option json).

Lemma forward_json_registry (msg : json) (st : bridge) :
  clients (fst (forward_json SF msg st)) = clients st /\
  writers (fst (forward_json SF msg st)) = writers st.
Proof.
  unfold forward_json.
  repeat case_match; unfold send_frame in *; simplify_eq; done.
Qed.

(** An exception in the JSON branch means nothing was handed over. *)
Lemma forward_json_raise_sent (msg : json) (st st1 : bridge) (e : exn) :
  forward_json SF msg st = (st1, Some e) -> sent st1 = sent st.
Proof.
  unfold forward_json.
  repeat case_match; unfold send_frame in *; intros ?; simplify_eq; done.
Qed.

(** A step either runs the [finally] block (own writer closed and
    unregistered) or leaves registry and writers alone. *)
Lemma step_registry (c c' : connection) (st st' : bridge) :
  step SF JL c st = Some (c', st') ->
  c_writer c' = c_writer c /\ c_pc c <> Finished /\
  ((c_pc c' = Finished /\
    clients st' = clients st ∖ {[c_writer c]} /\
    writers st' = alter writer_close (c_writer c) (writers st)) \/
   (c_pc c' <> Finished /\ clients st' = clients st /\ writers st' = writers st)).
Proof.
  unfold step, raised, finally.
  destruct (c_pc c) eqn:Hpc; [| | | done].
  all: repeat case_match; intros ?; simplify_eq; cbn; split_and!; try done.
  all: try (left; done).
  all: try (right; split_and!; done).
  - right. split; [done |]. apply forward_raw_clients.
  - match goal with H : forward_json _ ?m ?s = _ |- _ =>
      pose proof (forward_json_registry m s) as [Hc Hw]; rewrite H in Hc, Hw end.
    cbn in Hc, Hw. left. by rewrite Hc, Hw.
  - match goal with H : forward_json _ ?m ?s = _ |- _ =>
      pose proof (forward_json_registry m s) as [Hc Hw]; rewrite H in Hc, Hw end.
    right. done.
Qed.

Lemma run_registry (fuel : nat) (c : connection) (st : bridge) :
  c_writer (fst (run SF JL fuel c st)) = c_writer c /\
  ((c_pc (fst (run SF JL fuel c st)) = Finished /\ c_pc c <> Finished /\
    clients (snd (run SF JL fuel c st)) = clients st ∖ {[c_writer c]} /\
    writers (snd (run SF JL fuel c st)) =
      alter writer_close (c_writer c) (writers st)) \/
   (clients (snd (run SF JL fuel c st)) = clients st /\
    writers (snd (run SF JL fuel c st)) = writers st /\
    (c_pc (fst (run SF JL fuel c st)) = Finished -> c_pc c = Finished))).
Proof.
  revert c st. induction fuel as [|fuel IH]; intros c st; cbn [run].
  - split; [done |]. right. done.
  - destruct (step SF JL c st) as [[c' st']|] eqn:Hstep; [| split; [done |]; by right].
    destruct (step_registry _ _ _ _ Hstep) as (Hw & Hne & Hcase).
    destruct Hcase as [(Hfin & Hc & Hws) | (Hnfin & Hc & Hws)].
    + rewrite (run_suspended SF JL fuel c' st') by (by apply step_finished).
      cbn [fst snd]. split; [done |]. left. done.
    + destruct (IH c' st') as (Hw' & Hcase'). split; [congruence |].
      destruct Hcase' as [(Hfin & _ & Hc' & Hws') | (Hc' & Hws' & Himp)].
      * left. rewrite Hc', Hws', Hw, Hc, Hws. done.
      * right. rewrite Hc', Hws', Hc, Hws. split_and!; try done.
        intros Hf. by apply Himp in Hf.
Qed.

Lemma read_eof_ready (n : Z) (r : StreamReader) :
  r_eof r = true -> read n r <> Pending.
Proof.
  intros He. unfold read. rewrite He.
  destruct (n =? 0); [done |]. by destruct (r_buffer r).
Qed.

(** Once EOF was fed the coroutine cannot be suspended in a read. *)
Lemma step_none_at_eof (c : connection) (st : bridge) :
  r_eof (reader c) = true -> step SF JL c st = None -> c_pc c = Finished.
Proof.
  intros He. unfold step.
  destruct (c_pc c); [destruct (is_thermal c) | | | done].
  all: match goal with
       | |- context [read ?n ?r] =>
           pose proof (read_eof_ready n r He);
           destruct (read n r); [done |]
       end.
  all: repeat case_match; done.
Qed.

Lemma step_keeps_eof (c c' : connection) (st st' : bridge) :
  step SF JL c st = Some (c', st') -> r_eof (reader c') = r_eof (reader c).
Proof.
  unfold step, raised, finally.
  destruct (c_pc c); [destruct (is_thermal c) | | | done].
  all: match goal with
       | |- context [read ?n ?r] =>
           destruct (read n r) as [|got r0] eqn:Hread; [done |];
           apply read_keeps_eof in Hread
       end.
  all: repeat case_match; intros ?; simplify_eq; done.
Qed.

Lemma run_keeps_eof (fuel : nat) (c : connection) (st : bridge) :
  r_eof (reader (fst (run SF JL fuel c st))) = r_eof (reader c).
Proof.
  revert c st. induction fuel as [|fuel IH]; intros c st; cbn [run]; [done |].
  destruct (step SF JL c st) as [[c' st']|] eqn:Hstep; [| done].
  rewrite IH. by eapply step_keeps_eof.
Qed.

End HandlerRegistry.

(** X4: after EOF from the peer, whatever is still buffered and wherever
    the handler stands, the connection always ends: the handler finishes,
    its writer is closed and taken out of the registry; the other clients
    and their writers are untouched. *)
Theorem eof_always_finishes
    (SF : list CanFrame -> CanFrame -> Z) (JL : list Z -> option json)
    (c : connection) (st : bridge) :
  c_pc c <> Finished ->
  let res := on_eof SF JL c st in
  c_pc (fst res) = Finished /\
  clients (snd res) = clients st ∖ {[c_writer c]} /\
  writers (snd res) = alter writer_close (c_writer c) (writers st).
Proof.
  intros Hpc res. subst res. unfold on_eof.
  set (c1 := deliver_eof c).
  assert (Hfin : c_pc (fst (run SF JL (enough c1) c1 st)) = Finished).
  { eapply step_none_at_eof; [| apply run_settles].
    by rewrite run_keeps_eof. }
  destruct (run_registry SF JL (enough c1) c1 st) as (_ & Hcase).
  destruct Hcase as [(_ & _ & Hc & Hw) | (_ & _ & Himp)]; [done |].
  by apply Himp in Hfin.
Qed.

Lemma eof_always_finishes_witness :
  c_pc thermal_pending <> Finished /\
  c_pc (fst (on_eof bus_ok no_json thermal_pending fanout_bridge)) = Finished /\
  clients (snd (on_eof bus_ok no_json thermal_pending fanout_bridge)) =
    clients fanout_bridge ∖ {[0%nat]}.
Proof.
  split; [discriminate |].
  destruct (eof_always_finishes bus_ok no_json thermal_pending fanout_bridge
              ltac:(discriminate)) as (H1 & H2 & _).
  split; [exact H1 | exact H2].
Defined.

(** X5: a connection handler never disturbs the other clients: for every
    run, every writer other than the connection's own keeps its
    registration and its writer object unchanged. *)
Theorem handler_leaves_other_clients
    (SF : list CanFrame -> CanFrame -> Z) (JL : list Z -> option json)
    (fuel : nat) (c : connection) (st : bridge) (w : nat) :
  w <> c_writer c ->
  (w ∈ clients (snd (run SF JL fuel c st)) <-> w ∈ clients st) /\
  writers (snd (run SF JL fuel c st)) !! w = writers st !! w.
Proof.
  intros Hw.
  destruct (run_registry SF JL fuel c st) as (_ & [(_ & _ & Hc & Hws) | (Hc & Hws & _)]);
    rewrite Hc, Hws.
  - split; [| by apply lookup_alter_ne].
    rewrite elem_of_difference, elem_of_singleton. tauto.
  - done.
Qed.

Lemma handler_leaves_other_clients_witness :
  1%nat <> c_writer thermal_connection /\
  writers (snd (run bus_ok no_json 3
                  (deliver [9] thermal_connection) fanout_bridge)) !! 1%nat =
    writers fanout_bridge !! 1%nat.
Proof.
  split; [discriminate |].
  apply (handler_leaves_other_clients bus_ok no_json 3
           (deliver [9] thermal_connection) fanout_bridge 1%nat).
  discriminate.
Defined.

(** X6: the inbound path never writes to a client: whatever the handler
    does, the bytes written to every writer, its own included, are what
    they were. *)
Theorem handler_never_writes
    (SF : list CanFrame -> CanFrame -> Z) (JL : list Z -> option json)
    (fuel : nat) (c : connection) (st : bridge) (w : nat) :
  w_out <$> writers (snd (run SF JL fuel c st)) !! w = w_out <$> writers st !! w.
Proof.
  destruct (run_registry SF JL fuel c st) as (_ & [(_ & _ & _ & Hws) | (_ & Hws & _)]);
    rewrite Hws; [| done].
  rewrite lookup_alter. case_decide; [| done]. subst.
  by destruct (writers st !! c_writer c).
Qed.

(** ** Errors on the JSON path *)

(** X7: when handling a parsed message raises, the connection is closed
    and nothing of that message reaches the bus: the step runs the
    exception handler and the [finally] block, the frames handed to the
    transport are those from before, the error is reported, and only this
    connection's writer is closed and unregistered. *)
Theorem json_exception_closes_without_forwarding
    (SF : list CanFrame -> CanFrame -> Z) (JL : list Z -> option json)
    (c : connection) (st st1 : bridge) (msg_length : Z) (msg_bytes : list Z)
    (r : StreamReader) (msg : json) (e : exn) :
  c_pc c = AwaitMessage msg_length ->
  read msg_length (reader c) = Ready msg_bytes r -> msg_bytes <> [] ->
  JL msg_bytes = Some msg -> forward_json SF msg st = (st1, Some e) ->
  exists st',
    step SF JL c st = Some (at_pc Finished r c, st') /\
    sent st' = sent st /\
    clients st' = clients st ∖ {[c_writer c]} /\
    writers st' = alter writer_close (c_writer c) (writers st) /\
    log st' = log st1 ++ [HandlerError e; ConnectionClosed].
Proof.
  intros Hpc Hread Hne Hmsg Hfw. eexists. split.
  - unfold step. rewrite Hpc, Hread, bool_decide_eq_false_2, Hmsg, Hfw by done.
    reflexivity.
  - pose proof (forward_json_registry SF msg st) as [Hc Hw].
    rewrite Hfw in Hc, Hw. cbn [fst] in Hc, Hw.
    cbn. rewrite Hc, Hw, <- app_assoc.
    split_and!; try done. by eapply forward_json_raise_sent.
Qed.

Lemma json_exception_closes_without_forwarding_witness :
  exists st',
    step bus_ok (parses_as (JList [])) (json_pending [91; 93]) fanout_bridge =
      Some (at_pc Finished {| r_buffer := []; r_eof := false |}
              (json_pending [91; 93]), st') /\
    sent st' = sent fanout_bridge /\
    clients st' = clients fanout_bridge ∖ {[1%nat]} /\
    writers st' = alter writer_close 1%nat (writers fanout_bridge) /\
    log st' = log fanout_bridge ++ [HandlerError TypeError; ConnectionClosed].
Proof.
  apply (json_exception_closes_without_forwarding bus_ok (parses_as (JList []))
           (json_pending [91; 93]) fanout_bridge fanout_bridge 2 [91; 93]
           {| r_buffer := []; r_eof := false |} (JList []) TypeError
           eq_refl eq_refl ltac:(discriminate) eq_refl eq_refl).
Defined.

(** X8: which messages raise before anything is printed: a value that is
    not an object raises [TypeError]; an object without 'type' raises
    [KeyError]; a 'can' object without 'id' raises [KeyError]; a 'can'
    object whose id is a string or a float raises [ValueError].  In each
    case the bridge state is as before. *)
Theorem json_missing_keys_raise
    (SF : list CanFrame -> CanFrame -> Z) (st : bridge) :
  (forall msg, (forall kv, msg <> JDict kv) ->
     forward_json SF msg st = (st, Some TypeError)) /\
  (forall kv, kv !! "type" = None ->
     forward_json SF (JDict kv) st = (st, Some KeyError)) /\
  (forall kv, kv !! "type" = Some (JStr "can") -> kv !! "id" = None ->
     forward_json SF (JDict kv) st = (st, Some KeyError)) /\
  (forall kv s, kv !! "type" = Some (JStr "can") ->
     kv !! "id" = Some (JStr s) \/ kv !! "id" = Some (JFloat s) ->
     forward_json SF (JDict kv) st = (st, Some ValueError)).
Proof.
  split_and!.
  - intros msg Hmsg. unfold forward_json.
    destruct msg; try done. by destruct (Hmsg kv).
  - intros kv Hty. unfold forward_json. cbn [getitem]. by rewrite Hty.
  - intros kv Hty Hid. unfold forward_json. cbn [getitem]. by rewrite Hty, Hid.
  - intros kv s Hty [Hid|Hid]; unfold forward_json; cbn [getitem];
      by rewrite Hty, Hid.
Qed.

(** X9: a 'can' message with an integer id whose data list holds an
    entry outside 0..255 (after any number of good entries) raises
    [ValueError] after the reception was printed; no frame is built or
    sent and no buffer is retained. *)
Theorem json_bad_data_raises
    (SF : list CanFrame -> CanFrame -> Z) (st : bridge)
    (kv : gmap string json) (msg_id bad : Z) (good : list Z) (rest : list json) :
  kv !! "type" = Some (JStr "can") -> kv !! "id" = Some (JInt msg_id) ->
  kv !! "data" = Some (JList ((JInt <$> good) ++ JInt bad :: rest)) ->
  Forall is_byte good -> ~ is_byte bad ->
  forward_json SF (JDict kv) st = (print (ReceivedJson msg_id) st, Some ValueError).
Proof.
  intros Hty Hid Hdata Hgood Hbad. unfold forward_json.
  cbn [getitem dict_get]. rewrite Hty, Hid, Hdata.
  cbn [is_can String.eqb Ascii.eqb Bool.eqb andb mbind result_bind format_x
       from_option to_bytes].
  assert (Hm : mapM byte_of_item ((JInt <$> good) ++ JInt bad :: rest) =
               Raise ValueError).
  { clear Hdata.
    induction Hgood as [|b l Hb _ IH]; cbn [fmap list_fmap app mapM byte_of_item].
    - unfold is_byte in Hbad.
      destruct (Z.leb_spec 0 bad), (Z.leb_spec bad 255); try lia; done.
    - unfold is_byte in Hb.
      destruct (Z.leb_spec 0 b), (Z.leb_spec b 255); try lia.
      cbn [andb mbind result_bind]. by rewrite IH. }
  by rewrite Hm.
Qed.

Lemma json_bad_data_raises_witness :
  ~ is_byte 256 /\
  forward_json bus_ok (can_message 7 [1; 2; 256; 3]) sample_bridge =
    (print (ReceivedJson 7) sample_bridge, Some ValueError).
Proof.
  assert (H : ~ is_byte 256) by (unfold is_byte; lia).
  split; [exact H |].
  apply (json_bad_data_raises bus_ok sample_bridge
           {[ "type" := JStr "can"; "id" := JInt 7;
              "data" := JList (JInt <$> [1; 2; 256; 3]) ]}
           7 256 [1; 2] [JInt 3]).
  - vm_compute. reflexivity.
  - vm_compute. reflexivity.
  - vm_compute. reflexivity.
  - repeat (constructor; [unfold is_byte; lia |]). constructor.
  - exact H.
Defined.

(** X10: a 'can' message with an integer id and no 'data' key is not an
    error: the default empty list is used and one frame with an empty
    buffer, size 0 and dlc 0 is handed to the transport. *)
Theorem json_missing_data_empty_frame
    (SF : list CanFrame -> CanFrame -> Z) (st : bridge)
    (kv : gmap string json) (msg_id : Z) :
  kv !! "type" = Some (JStr "can") -> kv !! "id" = Some (JInt msg_id) ->
  kv !! "data" = None ->
  snd (forward_json SF (JDict kv) st) = None /\
  sent (fst (forward_json SF (JDict kv) st)) =
    sent st ++ [json_CanFrame (msg_id `mod` 2 ^ 32) 0 [] 0].
Proof.
  intros Hty Hid Hdata. unfold forward_json.
  cbn [getitem dict_get]. rewrite Hty, Hid, Hdata.
  cbn [is_can String.eqb Ascii.eqb Bool.eqb andb mbind result_bind format_x
       from_option to_bytes mapM]. unfold mret, result_ret.
  cbn [length]. change (set_dlc (Z.of_nat 0)) with (0, false).
  change (Z.of_nat 0) with 0.
  unfold send_frame. cbn. split; try case_match; done.
Qed.

Lemma json_missing_data_empty_frame_witness :
  sent (fst (forward_json bus_ok
               (JDict {[ "type" := JStr "can"; "id" := JInt 5 ]}) sample_bridge)) =
    sent sample_bridge ++ [json_CanFrame (5 `mod` 2 ^ 32) 0 [] 0].
Proof.
  apply (json_missing_data_empty_frame bus_ok sample_bridge
           {[ "type" := JStr "can"; "id" := JInt 5 ]} 5);
    vm_compute; reflexivity.
Defined.

Lemma json_missing_keys_raise_witness :
  forward_json bus_ok (JDict {[ "id" := JInt 1 ]}) sample_bridge =
    (sample_bridge, Some KeyError) /\
  forward_json bus_ok (JDict {[ "type" := JStr "can" ]}) sample_bridge =
    (sample_bridge, Some KeyError).
Proof.
  destruct (json_missing_keys_raise bus_ok sample_bridge) as (_ & H1 & H2 & _).
  split.
  - apply H1. vm_compute. reflexivity.
  - apply H2; vm_compute; reflexivity.
Defined.

(** ** The length prefix of the JSON path *)

(** X11: on a JSON connection at the top of its loop, a first read that
    returns 1 to 3 bytes makes [struct.unpack] raise and closes the
    connection; a complete prefix announcing 0 bytes makes the following
    [read(0)] return nothing, which closes the connection without any
    error report, whatever follows in the buffer. *)
Theorem json_length_prefix_edges
    (SF : list CanFrame -> CanFrame -> Z) (JL : list Z -> option json)
    (c : connection) (st : bridge) :
  is_thermal c = false -> c_pc c = LoopTop ->
  (forall p, r_buffer (reader c) = p -> p <> [] -> (length p < 4)%nat ->
     forall fuel,
       run SF JL (S fuel) c st =
         raised StructError {| r_buffer := []; r_eof := r_eof (reader c) |} c st) /\
  (forall rest, r_buffer (reader c) = [0; 0; 0; 0] ++ rest ->
     forall fuel,
       run SF JL (S (S fuel)) c st =
         finally {| r_buffer := rest; r_eof := r_eof (reader c) |} c st).
Proof.
  intros Hth Hpc. split.
  - intros p Hbuf Hne Hlen fuel.
    assert (Hstep : step SF JL c st =
      Some (raised StructError {| r_buffer := []; r_eof := r_eof (reader c) |} c st)).
    { unfold step. rewrite Hpc, Hth, read_buffered, Hbuf by (by rewrite ?Hbuf).
      change (Z.to_nat 4) with 4%nat. rewrite take_ge, drop_ge by lia.
      rewrite bool_decide_eq_false_2 by done.
      destruct p as [|b0 [|b1 [|b2 [|b3 p]]]]; try done. simpl in Hlen. lia. }
    cbn [run]. rewrite Hstep. unfold raised, finally.
    apply run_suspended, step_finished. reflexivity.
  - intros rest Hbuf fuel.
    assert (Hstep : step SF JL c st =
      Some (at_pc (AwaitMessage 0)
              {| r_buffer := rest; r_eof := r_eof (reader c) |} c, st)).
    { unfold step. rewrite Hpc, Hth, read_buffered, Hbuf by (by rewrite ?Hbuf).
      reflexivity. }
    erewrite run_resumed by exact Hstep.
    cbn [run]. unfold step at 1. cbn [c_pc at_pc reader read Z.eqb].
    rewrite bool_decide_eq_true_2 by done. unfold finally.
    apply run_suspended, step_finished. reflexivity.
Qed.

Lemma json_length_prefix_edges_witness :
  run bus_ok no_json 1 (deliver [0; 0] json_pending_top) sample_bridge =
    raised StructError {| r_buffer := []; r_eof := false |}
      (deliver [0; 0] json_pending_top) sample_bridge /\
  run bus_ok no_json 2 (deliver [0; 0; 0; 0; 9] json_pending_top) sample_bridge =
    finally {| r_buffer := [9]; r_eof := false |}
      (deliver [0; 0; 0; 0; 9] json_pending_top) sample_bridge.
Proof.
  split.
  - destruct (json_length_prefix_edges bus_ok no_json
                (deliver [0; 0] json_pending_top) sample_bridge eq_refl eq_refl)
      as [H _].
    apply (H [0; 0] eq_refl ltac:(discriminate) ltac:(simpl; lia) 0%nat).
  - destruct (json_length_prefix_edges bus_ok no_json
                (deliver [0; 0; 0; 0; 9] json_pending_top) sample_bridge
                eq_refl eq_refl) as [_ H].
    apply (H [9] eq_refl 0%nat).
Defined.

(** ** Several frames in one chunk *)

Section Streams.

Context (SF : list CanFrame -> CanFrame -> Z).
Context (JL : list Z -> option json).

Lemma run_stream (frames : list (Z * list Z)) :
  forall (fuel : nat) (c : connection) (st : bridge),
  is_thermal c = true -> c_pc c = LoopTop -> r_eof (reader c) = false ->
  r_buffer (reader c) = compact_stream frames ->
  Forall (fun '(_, payload) => payload <> []) frames ->
  (2 * length frames < fuel)%nat ->
  run SF JL fuel c st =
    (at_pc LoopTop {| r_buffer := []; r_eof := false |} c,
     forward_all SF frames st).
Proof.
  induction frames as [|[can_id payload] frames IH];
    intros fuel c st Hth Hpc Heof Hbuf Hok Hfuel.
  - rewrite run_suspended by (by apply step_waiting).
    destruct c as [w th [buf eof] p]. simpl in *. by subst.
  - apply Forall_cons_1 in Hok as [Hne Hok].
    destruct fuel as [|[|fuel]]; [simpl in Hfuel; lia .. |].
    rewrite (run_whole_frame SF JL fuel c st can_id payload (compact_stream frames))
      by done.
    rewrite IH; try done. simpl in Hfuel. lia.
Qed.

Lemma forward_all_sent (frames : list (Z * list Z)) (st : bridge) :
  Forall (fun '(can_id, _) => 0 <= can_id < 2 ^ 32) frames ->
  sent (forward_all SF frames st) =
    sent st ++
    ((fun '(can_id, payload) =>
        raw_CanFrame can_id (Z.of_nat (length payload)) payload) <$> frames).
Proof.
  revert st. induction frames as [|[can_id payload] frames IH]; intros st Hok.
  - simpl. by rewrite app_nil_r.
  - apply Forall_cons_1 in Hok as [Hid Hok].
    change (forward_all SF ((can_id, payload) :: frames) st) with
      (forward_all SF frames
         (forward_raw SF (be32 can_id ++ [Z.of_nat (length payload)]) payload st)).
    rewrite IH by done.
    rewrite forward_raw_sent, <- app_assoc. cbn [fmap list_fmap app].
    do 3 f_equal. by apply can_id_of_be32.
Qed.

End Streams.

(** X12: any number of whole compact frames (non-empty payloads, ids
    fitting 32 bits) arriving back to back in one chunk on an idle compact
    connection are all forwarded, one frame each, in the order in which
    they were sent; every byte is consumed and the handler waits again. *)
Theorem compact_stream_forwarded_in_order
    (SF : list CanFrame -> CanFrame -> Z) (JL : list Z -> option json)
    (c : connection) (st : bridge) (frames : list (Z * list Z)) :
  is_thermal c = true -> c_pc c = LoopTop ->
  reader c = {| r_buffer := []; r_eof := false |} ->
  Forall (fun '(can_id, payload) => 0 <= can_id < 2 ^ 32 /\ payload <> []) frames ->
  let res := on_data SF JL (compact_stream frames) c st in
  c_pc (fst res) = LoopTop /\
  reader (fst res) = {| r_buffer := []; r_eof := false |} /\
  sent (snd res) =
    sent st ++
    ((fun '(can_id, payload) =>
        raw_CanFrame can_id (Z.of_nat (length payload)) payload) <$> frames).
Proof.
  intros Hth Hpc Hrd Hok res. subst res. unfold on_data.
  assert (Hlen : (6 * length frames <= length (compact_stream frames))%nat).
  { clear -Hok. induction Hok as [|[can_id payload] l [_ Hne] _ IH]; [done |].
    unfold compact_stream in *. cbn [fmap list_fmap concat].
    rewrite length_app, length_compact_frame. cbn [length].
    destruct payload; [done |]. simpl in *. lia. }
  rewrite (run_stream SF JL frames).
  - cbn [fst snd]. split_and!; try done.
    apply forward_all_sent. eapply List.Forall_impl; [| exact Hok].
    by intros [? ?] [? _].
  - done.
  - done.
  - unfold deliver. cbn. by rewrite Hrd.
  - unfold deliver. cbn. by rewrite Hrd.
  - eapply List.Forall_impl; [| exact Hok]. by intros [? ?] [_ ?].
  - unfold enough, deliver. cbn [reader at_pc feed_data r_buffer].
    rewrite Hrd. cbn [r_buffer app]. lia.
Qed.

Lemma compact_stream_forwarded_in_order_witness :
  sent (snd (on_data bus_ok no_json
               (compact_stream [(0x123, [10; 20]); (0x7FF, [1]); (0x123, [30])])
               thermal_connection sample_bridge)) =
    [raw_CanFrame 0x123 2 [10; 20]; raw_CanFrame 0x7FF 1 [1];
     raw_CanFrame 0x123 1 [30]].
Proof.
  apply (compact_stream_forwarded_in_order bus_ok no_json thermal_connection
           sample_bridge [(0x123, [10; 20]); (0x7FF, [1]); (0x123, [30])]
           eq_refl eq_refl eq_refl).
  repeat (constructor; [split; [lia | discriminate] |]). constructor.
Defined.

(** ** The retained buffers *)

Section Retention.

Context (SF : list CanFrame -> CanFrame -> Z).
Context (JL : list Z -> option json).

Lemma keep_buffer_bounded (b : list Z) (st : bridge) :
  (length (data_buffers st) <= 10)%nat ->
  (length (data_buffers (keep_buffer b st)) <= 10)%nat.
Proof.
  intros Hlen. unfold keep_buffer. cbn [data_buffers set_data_buffers].
  destruct (Nat.ltb_spec 10 (length (data_buffers st ++ [b]))) as [Hgt|Hle].
  - rewrite length_drop, length_app. simpl. lia.
  - done.
Qed.

Lemma forward_raw_buffers (header data_bytes : list Z) (st : bridge) :
  data_buffers (forward_raw SF header data_bytes st) =
    data_buffers (keep_buffer data_bytes st).
Proof. unfold forward_raw, send_frame. cbn. by case_match. Qed.

Lemma forward_json_buffers (msg : json) (st : bridge) :
  (length (data_buffers st) <= 10)%nat ->
  (length (data_buffers (fst (forward_json SF msg st))) <= 10)%nat.
Proof.
  intros Hlen. unfold forward_json.
  repeat case_match; unfold send_frame in *; simplify_eq; cbn [fst]; try done.
  all: cbn [data_buffers print];
    match goal with
    | |- context [keep_buffer ?b ?s] =>
        apply (keep_buffer_bounded b s); by cbn
    end.
Qed.

Lemma step_buffers (c c' : connection) (st st' : bridge) :
  step SF JL c st = Some (c', st') ->
  (length (data_buffers st) <= 10)%nat ->
  (length (data_buffers st') <= 10)%nat.
Proof.
  unfold step, raised, finally. intros Hstep Hlen. revert Hstep.
  repeat case_match; intros ?; simplify_eq; try (cbn; done).
  - rewrite forward_raw_buffers. by apply keep_buffer_bounded.
  - match goal with H : forward_json _ ?m ?s = _ |- _ =>
      pose proof (forward_json_buffers m s Hlen) as Hb; by rewrite H in Hb end.
  - match goal with H : forward_json _ ?m ?s = _ |- _ =>
      pose proof (forward_json_buffers m s Hlen) as Hb; by rewrite H in Hb end.
Qed.

End Retention.

(** X13: the list of retained data buffers never grows beyond 10 entries:
    if it holds at most 10 buffers before (it is emptied when a connection
    is accepted), it holds at most 10 after any run of a handler, whatever
    arrives. *)
Theorem retained_buffers_bounded
    (SF : list CanFrame -> CanFrame -> Z) (JL : list Z -> option json)
    (fuel : nat) (c : connection) (st : bridge) :
  (length (data_buffers st) <= 10)%nat ->
  (length (data_buffers (snd (run SF JL fuel c st))) <= 10)%nat.
Proof.
  revert c st. induction fuel as [|fuel IH]; intros c st Hlen; cbn [run]; [done |].
  destruct (step SF JL c st) as [[c' st']|] eqn:Hstep; [| done].
  apply IH. by eapply step_buffers.
Qed.

Lemma retained_buffers_bounded_witness :
  (length (data_buffers sample_bridge) <= 10)%nat /\
  (length (data_buffers (snd (run bus_ok no_json 30
      (deliver (compact_stream (replicate 12 (0x123%Z, [1%Z]))) thermal_connection)
      sample_bridge))) <= 10)%nat.
Proof.
  assert (H : (length (data_buffers sample_bridge) <= 10)%nat) by (simpl; lia).
  split; [exact H |].
  apply (retained_buffers_bounded bus_ok no_json 30 _ sample_bridge H).
Defined.

(** Twelve frames on one connection: the ten most recent buffers stay. *)
Example twelve_frames_keep_ten :
  length (data_buffers (snd (run bus_ok no_json 30
      (deliver (compact_stream (replicate 12 (0x123%Z, [1%Z]))) thermal_connection)
      sample_bridge))) = 10%nat.
Proof. vm_compute. reflexivity. Qed.

(** ** More on the fan-out *)

(** [handle_can_message] on any frame, packable or not *)
Lemma handle_can_message_any (f : CanFrame) (st : bridge) :
  clients (handle_can_message f st) = clients st /\
  sent (handle_can_message f st) = sent st /\
  (forall w, writers (handle_can_message f st) !! w =
     match raw_frame_of f with
     | Some raw =>
         if decide (w ∈ clients st) then delivered raw <$> writers st !! w
         else writers st !! w
     | None => writers st !! w
     end).
Proof.
  unfold handle_can_message.
  set (st0 := match bv_data (data f) with Some _ => _ | None => _ end).
  assert (H0 : clients st0 = clients st /\ sent st0 = sent st /\
               writers st0 = writers st).
  { subst st0. destruct (bv_data (data f)); [case_match |]; done. }
  destruct H0 as (Hc0 & Hs0 & Hw0).
  destruct (raw_frame_of f) as [raw|]; [| by rewrite <- Hc0, <- Hs0, <- Hw0].
  pose proof (fanout_fold raw (elements (clients st0)) (NoDup_elements _) st0 0)
    as (Hc & Hs & Hw & _).
  destruct (foldl (send_to_client raw) (st0, 0) (elements (clients st0)))
    as [st1 n1]. cbn [fst] in *. simpl.
  split_and!; [congruence | congruence |].
  intros w. rewrite Hw, Hw0, Hc0.
  destruct (decide (w ∈ clients st)).
  - by rewrite decide_True by (by apply elem_of_elements).
  - by rewrite decide_False by (by rewrite elem_of_elements).
Qed.

(** X14: for any bus frame whatsoever, the fan-out hands nothing to the
    transport, leaves the registry as it is, and touches a writer only if
    it is a registered client whose write goes through, in which case
    exactly the raw frame is appended; every other writer object is
    unchanged. *)
Theorem fanout_touches_only_clients (f : CanFrame) (st : bridge) :
  sent (handle_can_message f st) = sent st /\
  clients (handle_can_message f st) = clients st /\
  (forall w,
     writers (handle_can_message f st) !! w = writers st !! w \/
     exists raw writer,
       raw_frame_of f = Some raw /\ w ∈ clients st /\
       writers st !! w = Some writer /\ w_broken writer = false /\
       writers (handle_can_message f st) !! w = Some (writer_write raw writer)).
Proof.
  destruct (handle_can_message_any f st) as (Hc & Hs & Hw).
  split; [done |]. split; [done |].
  intros w. rewrite Hw.
  destruct (raw_frame_of f) as [raw|]; [| by left].
  destruct (decide (w ∈ clients st)); [| by left].
  destruct (writers st !! w) as [writer|] eqn:Hlk; [| by left].
  cbn. unfold delivered. destruct (w_broken writer) eqn:Hb; [by left |].
  right. by exists raw, writer.
Qed.

(** X15: a bus frame with a NULL data pointer, a size of 0, a dlc of 0 or
    a dlc above 15 (which [get_dlc_size] maps to 0) is fanned out as the
    five header bytes alone, with length byte 0, whatever its buffer
    holds. *)
Theorem fanout_empty_payload (f : CanFrame) :
  frame_in_range f ->
  bv_data (data f) = None \/ bv_size (data f) = 0 \/ dlc f = 0 \/ 15 < dlc f ->
  raw_frame_of f = Some (be32 (id f) ++ [0]).
Proof.
  intros Hf Hcase. rewrite (raw_frame_in_range f Hf).
  pose proof (size_range f Hf) as Hs. pose proof (dlc_range f Hf) as Hd.
  assert (H0 : data_size_of f = 0).
  { unfold data_size_of. destruct (bv_data (data f)); [| done].
    destruct Hcase as [? | [Hz | [Hz | Hz]]]; [done | | |].
    - rewrite Hz. pose proof (get_dlc_size_range (dlc f)). lia.
    - rewrite Hz. change (get_dlc_size 0) with 0. lia.
    - assert (get_dlc_size (dlc f) = 0); [| lia].
      unfold get_dlc_size.
      repeat match goal with
             | |- context [?a <=? ?b] => destruct (Z.leb_spec a b); try lia
             | |- context [?a =? ?b] => destruct (Z.eqb_spec a b); try lia
             end. }
  unfold data_array_of. rewrite H0.
  by destruct (bv_data (data f)).
Qed.

Lemma fanout_empty_payload_witness :
  frame_in_range (raw_CanFrame 0x321 200 [1; 2; 3]) /\
  raw_frame_of (raw_CanFrame 0x321 200 [1; 2; 3]) = Some (be32 0x321 ++ [0]).
Proof.
  assert (H : frame_in_range (raw_CanFrame 0x321 200 [1; 2; 3])).
  { split; simpl; try lia. intros buf [= <-].
    repeat (constructor; [unfold is_byte; lia |]). constructor. }
  split; [exact H |].
  apply (fanout_empty_payload _ H). right. right. right. simpl. lia.
Defined.

(** X16: bus to wire to bus.  A bus frame with 1 to 8 payload bytes whose
    dlc and size both equal the buffer length is fanned out as bytes
    which, fed to an idle compact connection, are decoded and forwarded
    as a frame with the same id, dlc, payload, size and flags. *)
Theorem fanout_then_compact_decode
    (SF : list CanFrame -> CanFrame -> Z) (JL : list Z -> option json)
    (f : CanFrame) (buf : list Z) (c : connection) (st : bridge) :
  frame_in_range f -> bv_data (data f) = Some buf ->
  bv_size (data f) = Z.of_nat (length buf) -> dlc f = Z.of_nat (length buf) ->
  (1 <= length buf <= 8)%nat ->
  is_thermal c = true -> c_pc c = LoopTop ->
  reader c = {| r_buffer := []; r_eof := false |} ->
  exists raw,
    raw_frame_of f = Some raw /\
    sent (snd (on_data SF JL raw c st)) =
      sent st ++ [raw_CanFrame (id f) (dlc f) buf] /\
    c_pc (fst (on_data SF JL raw c st)) = LoopTop.
Proof.
  intros Hf Hbuf Hsize Hdlc Hlen Hth Hpc Hrd.
  exists (compact_frame (id f) buf).
  assert (Hg : get_dlc_size (dlc f) = Z.of_nat (length buf)).
  { rewrite Hdlc. unfold get_dlc_size.
    destruct (Z.leb_spec (Z.of_nat (length buf)) 8); [done | lia]. }
  split.
  { rewrite (raw_frame_in_range f Hf). f_equal.
    by apply raw_frame_consistent. }
  assert (Hne : buf <> []) by (destruct buf; [simpl in Hlen; lia | done]).
  destruct c as [w th rd p]. simpl in Hth, Hpc, Hrd. subst th p rd.
  unfold on_data, enough, deliver, feed_data.
  cbn [reader r_buffer r_eof app c_pc].
  change (3 + ?n)%nat with (S (S (S n))).
  rewrite (run_whole_frame _ _ _ _ _ (id f) buf [])
    by (done || by rewrite app_nil_r).
  rewrite run_suspended by (by apply step_waiting).
  cbn [fst snd]. split; [| done].
  rewrite forward_raw_sent. do 2 f_equal.
  change (nth 4 _ 0) with (Z.of_nat (length buf)). rewrite Hdlc. f_equal.
  apply can_id_of_be32. apply Hf.
Qed.

Lemma fanout_then_compact_decode_witness :
  exists raw,
    raw_frame_of frame_999 = Some raw /\
    sent (snd (on_data bus_ok no_json raw thermal_connection sample_bridge)) =
      sent sample_bridge ++ [raw_CanFrame (id frame_999) (dlc frame_999) [1; 2; 3]] /\
    c_pc (fst (on_data bus_ok no_json raw thermal_connection sample_bridge)) =
      LoopTop.
Proof.
  apply (fanout_then_compact_decode bus_ok no_json frame_999 [1; 2; 3]
           thermal_connection sample_bridge frame_999_in_range
           eq_refl eq_refl eq_refl ltac:(simpl; lia) eq_refl eq_refl eq_refl).
Defined.

(** ** Connections coming and going *)

(** X17: once a connection has ended (here, by EOF), bus frames are no
    longer written to its writer: after the handler finished, a fan-out
    of any frame leaves that writer exactly as the handler left it,
    closed and with the bytes it had. *)
Theorem finished_connection_gets_no_fanout
    (SF : list CanFrame -> CanFrame -> Z) (JL : list Z -> option json)
    (c : connection) (st : bridge) (f : CanFrame) :
  c_pc c <> Finished ->
  let st' := snd (on_eof SF JL c st) in
  writers (handle_can_message f st') !! c_writer c =
    writer_close <$> writers st !! c_writer c.
Proof.
  intros Hpc st'. subst st'.
  destruct (eof_always_finishes SF JL c st Hpc) as (_ & Hc & Hw).
  destruct (handle_can_message_any f (snd (on_eof SF JL c st))) as (_ & _ & H).
  rewrite H, Hc, Hw.
  assert (Hnot : c_writer c ∉ clients st ∖ {[c_writer c]}).
  { apply not_elem_of_difference. right. by apply elem_of_singleton. }
  destruct (raw_frame_of f); [rewrite decide_False by done |];
    by rewrite lookup_alter_eq.
Qed.

Lemma finished_connection_gets_no_fanout_witness :
  c_pc thermal_connection <> Finished /\
  writers (handle_can_message frame_999
             (snd (on_eof bus_ok no_json thermal_connection fanout_bridge)))
    !! 0%nat =
    writer_close <$> writers fanout_bridge !! 0%nat.
Proof.
  split; [discriminate |].
  apply (finished_connection_gets_no_fanout bus_ok no_json thermal_connection
           fanout_bridge frame_999).
  discriminate.
Defined.

(** X18: a client receives bus frames from the moment it is accepted,
    whichever protocol its address selects: after [accept] of a writer
    with a peer name and a working [write], the next fan-out appends the
    raw frame to that writer; the connection starts at the top of the
    loop with an empty reader, compact exactly when the peer host starts
    with 192.0.2. *)
Theorem accepted_client_gets_fanout
    (w : nat) (writer : StreamWriter) (host : string) (st : bridge) (f : CanFrame) :
  writers st !! w = Some writer -> w_peer writer = Some host ->
  w_broken writer = false -> frame_in_range f ->
  snd (accept w st) =
    Some {| c_writer := w; is_thermal := thermal_host host;
            reader := {| r_buffer := []; r_eof := false |}; c_pc := LoopTop |} /\
  (w ∈ clients (fst (accept w st))) /\
  writers (handle_can_message f (fst (accept w st))) !! w =
    Some (writer_write (be32 (id f) ++ [data_size_of f] ++ data_array_of f) writer).
Proof.
  intros Hlk Hpeer Hb Hf. unfold accept. rewrite Hlk. cbn [mbind option_bind].
  rewrite Hpeer. cbn [fst snd]. split; [done |].
  split; [cbn; apply elem_of_union; left; by apply elem_of_singleton |].
  match goal with |- context [handle_can_message f ?s] =>
    pose proof (handle_can_message_spec f s Hf) as (_ & _ & Hw & _) end.
  rewrite Hw. cbn [clients writers set_data_buffers set_clients print].
  rewrite decide_True by (apply elem_of_union; left; by apply elem_of_singleton).
  rewrite Hlk. cbn. unfold delivered. by rewrite Hb.
Qed.

Lemma accepted_client_gets_fanout_witness :
  frame_in_range frame_999 /\
  writers (handle_can_message frame_999 (fst (accept 1 sample_bridge))) !! 1%nat =
    Some (writer_write
            (be32 (id frame_999) ++ [data_size_of frame_999] ++
             data_array_of frame_999)
            {| w_peer := Some "127.0.0.1"; w_out := [];
               w_broken := false; w_closed := false |}).
Proof.
  split; [exact frame_999_in_range |].
  apply (accepted_client_gets_fanout 1
           {| w_peer := Some "127.0.0.1"; w_out := [];
              w_broken := false; w_closed := false |}
           "127.0.0.1" sample_bridge frame_999);
    first [exact frame_999_in_range | vm_compute; reflexivity].
Defined.

(** One whole frame arriving on an idle compact connection *)
Lemma on_data_whole_frame
    (SF : list CanFrame -> CanFrame -> Z) (JL : list Z -> option json)
    (c : connection) (st : bridge) (can_id : Z) (payload : list Z) :
  is_thermal c = true -> c_pc c = LoopTop ->
  reader c = {| r_buffer := []; r_eof := false |} -> payload <> [] ->
  on_data SF JL (compact_frame can_id payload) c st =
    (at_pc LoopTop {| r_buffer := []; r_eof := false |} c,
     forward_raw SF (be32 can_id ++ [Z.of_nat (length payload)]) payload st).
Proof.
  intros Hth Hpc Hrd Hne.
  destruct c as [w th rd p]. simpl in Hth, Hpc, Hrd. subst th p rd.
  unfold on_data, enough, deliver, feed_data.
  cbn [reader r_buffer r_eof app c_pc].
  change (3 + ?n)%nat with (S (S (S n))).
  rewrite (run_whole_frame _ _ _ _ _ can_id payload [])
    by (done || by rewrite app_nil_r).
  by rewrite run_suspended by (by apply step_waiting).
Qed.

(** ** The compact format as the test client speaks it *)

Lemma decode_compact_frame (can_id : Z) (payload rest : list Z) :
  0 <= can_id < 2 ^ 32 ->
  decode_can_message (compact_frame can_id payload ++ rest) =
    Ok (Some (can_id, Z.of_nat (length payload), payload), rest).
Proof.
  intros Hid. unfold decode_can_message.
  assert (Hlen : length (compact_frame can_id payload ++ rest) =
                 (5 + length payload + length rest)%nat).
  { rewrite length_app, length_compact_frame. lia. }
  rewrite Hlen.
  destruct (Nat.ltb_spec (5 + length payload + length rest) 5); [lia |].
  pose proof (can_id_of_be32 can_id [] Hid) as Hcid.
  unfold can_id_of, be32 in Hcid. cbn [app nth] in Hcid.
  change (take 5 (compact_frame can_id payload ++ rest))
    with (be32 can_id ++ [Z.of_nat (length payload)]).
  unfold be32 at 1. cbn [app unpack_IB mbind result_bind].
  rewrite Hcid.
  destruct (Z.ltb_spec (Z.of_nat (5 + length payload + length rest))
              (5 + Z.of_nat (length payload))); [lia |].
  replace (Z.to_nat (5 + Z.of_nat (length payload)))
    with (length (compact_frame can_id payload))
    by (rewrite length_compact_frame; lia).
  rewrite take_app_length, drop_app_length. reflexivity.
Qed.

Lemma bytes_of_ints_bytes (l : list Z) :
  Forall is_byte l -> bytes_of_ints l = Ok l.
Proof.
  intros H. unfold bytes_of_ints.
  assert (Hf : forallb (fun b => (0 <=? b) && (b <=? 255)) l = true).
  { apply forallb_forall. intros b Hb. rewrite List.Forall_forall in H.
    specialize (H b Hb). unfold is_byte in H.
    apply andb_true_intro. split; apply Z.leb_le; lia. }
  by rewrite Hf.
Qed.

Lemma encode_can_message_ok (can_id : Z) (data : list Z) :
  0 <= can_id < 2 ^ 32 -> Forall is_byte data -> (length data <= 8)%nat ->
  encode_can_message can_id data = Ok (compact_frame can_id data).
Proof.
  intros Hid Hbytes Hlen. unfold encode_can_message, pack_IB, pack_I.
  destruct (Z.gtb_spec (Z.of_nat (length data)) 8); [lia |].
  destruct (Z.leb_spec 0 can_id), (Z.ltb_spec can_id (2 ^ 32)); try lia.
  cbn [andb]. rewrite pack_B_byte by (unfold is_byte; lia).
  cbn [mbind result_bind]. rewrite bytes_of_ints_bytes by done.
  cbn [mbind result_bind]. unfold compact_frame. by rewrite <- app_assoc.
Qed.

(** X19: client round trip.  For an id that fits 32 bits and at most 8
    byte values, [encode_can_message] succeeds, and [decode_can_message]
    applied to its output followed by any further bytes returns the same
    id, the payload length as dlc, the same payload, and exactly the
    further bytes as the remainder. *)
Theorem telematics_round_trip (can_id : Z) (data rest : list Z) :
  0 <= can_id < 2 ^ 32 -> Forall is_byte data -> (length data <= 8)%nat ->
  exists wire,
    encode_can_message can_id data = Ok wire /\
    decode_can_message (wire ++ rest) =
      Ok (Some (can_id, Z.of_nat (length data), data), rest).
Proof.
  intros Hid Hbytes Hlen. exists (compact_frame can_id data).
  split; [by apply encode_can_message_ok | by apply decode_compact_frame].
Qed.

Lemma telematics_round_trip_witness :
  exists wire,
    encode_can_message 0xAC2 [1] = Ok wire /\
    decode_can_message (wire ++ [0; 0]) = Ok (Some (0xAC2, 1, [1]), [0; 0]).
Proof.
  apply (telematics_round_trip 0xAC2 [1] [0; 0]); [lia | | simpl; lia].
  repeat (constructor; [unfold is_byte; lia |]). constructor.
Defined.

(** X20: the client decoder never consumes a partial message: on every
    strict prefix of an encoded message it returns no message and hands
    the buffer back unchanged. *)
Theorem telematics_partial_untouched (can_id : Z) (data : list Z) (k : nat) :
  0 <= can_id < 2 ^ 32 ->
  (k < length (compact_frame can_id data))%nat ->
  decode_can_message (take k (compact_frame can_id data)) =
    Ok (None, take k (compact_frame can_id data)).
Proof.
  intros Hid Hk. rewrite length_compact_frame in Hk.
  unfold decode_can_message.
  assert (Hlen : length (take k (compact_frame can_id data)) = k).
  { rewrite length_take, length_compact_frame. lia. }
  rewrite Hlen. destruct (Nat.ltb_spec k 5) as [|Hge]; [done |].
  rewrite take_take, Nat.min_l by done.
  change (take 5 (compact_frame can_id data))
    with (be32 can_id ++ [Z.of_nat (length data)]).
  unfold be32 at 1. cbn [app unpack_IB mbind result_bind].
  destruct (Z.ltb_spec (Z.of_nat k) (5 + Z.of_nat (length data))); [done | lia].
Qed.

Lemma telematics_partial_untouched_witness :
  decode_can_message (take 6 (compact_frame 0x125 [0; 0; 1])) =
    Ok (None, take 6 (compact_frame 0x125 [0; 0; 1])).
Proof.
  apply (telematics_partial_untouched 0x125 [0; 0; 1] 6); [lia | simpl; lia].
Defined.

(** X21: the client decoder understands what the bridge fans out: for
    every bus frame within the field ranges, decoding the raw frame
    (followed by anything) yields the frame's id, the fan-out size and
    the fan-out payload, and leaves what follows. *)
Theorem telematics_decodes_fanout (f : CanFrame) (rest : list Z) :
  frame_in_range f ->
  exists raw,
    raw_frame_of f = Some raw /\
    decode_can_message (raw ++ rest) =
      Ok (Some (id f, data_size_of f, data_array_of f), rest).
Proof.
  intros Hf. eexists. split; [by apply raw_frame_in_range |].
  rewrite <- (length_data_array f Hf).
  apply (decode_compact_frame (id f) (data_array_of f) rest). apply Hf.
Qed.

Lemma telematics_decodes_fanout_witness :
  frame_in_range frame_short_dlc /\
  exists raw,
    raw_frame_of frame_short_dlc = Some raw /\
    decode_can_message (raw ++ [9]) =
      Ok (Some (id frame_short_dlc, data_size_of frame_short_dlc,
                data_array_of frame_short_dlc), [9]).
Proof.
  split; [exact frame_short_dlc_in_range |].
  apply (telematics_decodes_fanout frame_short_dlc [9] frame_short_dlc_in_range).
Defined.

(** X22: what the client encoder refuses: more than 8 data values raise
    [ValueError] before anything is packed; with at most 8 values, an id
    outside 32 bits raises [struct.error], and otherwise a value outside
    0..255 raises [ValueError]. *)
Theorem telematics_encode_errors (can_id : Z) (data : list Z) :
  ((8 < length data)%nat -> encode_can_message can_id data = Raise ValueError) /\
  ((length data <= 8)%nat -> ~ (0 <= can_id < 2 ^ 32) ->
     encode_can_message can_id data = Raise StructError) /\
  ((length data <= 8)%nat -> 0 <= can_id < 2 ^ 32 -> ~ Forall is_byte data ->
     encode_can_message can_id data = Raise ValueError).
Proof.
  unfold encode_can_message, pack_IB, pack_I. split_and!.
  - intros Hlen. by destruct (Z.gtb_spec (Z.of_nat (length data)) 8); [| lia].
  - intros Hlen Hid. destruct (Z.gtb_spec (Z.of_nat (length data)) 8); [lia |].
    destruct (Z.leb_spec 0 can_id), (Z.ltb_spec can_id (2 ^ 32)); try lia; done.
  - intros Hlen Hid Hbad. destruct (Z.gtb_spec (Z.of_nat (length data)) 8); [lia |].
    destruct (Z.leb_spec 0 can_id), (Z.ltb_spec can_id (2 ^ 32)); try lia.
    cbn [andb]. rewrite pack_B_byte by (unfold is_byte; lia).
    cbn [mbind result_bind]. unfold bytes_of_ints.
    destruct (forallb _ data) eqn:Hf; [| done].
    exfalso. apply Hbad. apply List.Forall_forall. intros b Hb.
    rewrite forallb_forall in Hf. specialize (Hf b Hb).
    apply andb_prop in Hf as [Hlo Hhi]. unfold is_byte.
    apply Z.leb_le in Hlo, Hhi. lia.
Qed.

Lemma telematics_encode_errors_witness :
  encode_can_message 0x123 (replicate 9 0) = Raise ValueError /\
  encode_can_message 4294967296 [1] = Raise StructError.
Proof.
  split.
  - destruct (telematics_encode_errors 0x123 (replicate 9 0)) as (H & _ & _).
    apply H. simpl. lia.
  - destruct (telematics_encode_errors 4294967296 [1]) as (_ & H & _).
    apply H; [simpl; lia | lia].
Defined.

(** X23: the bridge accepts what the client encodes: for an id fitting 32
    bits and 1 to 8 byte values, the encoded message fed to an idle
    compact connection is forwarded as one frame with that id and
    payload, and that frame is well formed (size, buffer length and the
    decoded dlc all agree). *)
Theorem bridge_accepts_client_encoding
    (SF : list CanFrame -> CanFrame -> Z) (JL : list Z -> option json)
    (c : connection) (st : bridge) (can_id : Z) (values : list Z) :
  0 <= can_id < 2 ^ 32 -> Forall is_byte values -> (1 <= length values <= 8)%nat ->
  is_thermal c = true -> c_pc c = LoopTop ->
  reader c = {| r_buffer := []; r_eof := false |} ->
  exists wire f,
    encode_can_message can_id values = Ok wire /\
    sent (snd (on_data SF JL wire c st)) = sent st ++ [f] /\
    id f = can_id /\ bv_data (data f) = Some values /\
    well_formed_frame f /\ get_dlc_size (dlc f) = Z.of_nat (length values).
Proof.
  intros Hid Hbytes Hlen Hth Hpc Hrd.
  exists (compact_frame can_id values),
    (raw_CanFrame can_id (Z.of_nat (length values)) values).
  split; [apply encode_can_message_ok; (done || lia) |].
  assert (Hg : get_dlc_size (Z.of_nat (length values)) = Z.of_nat (length values)).
  { unfold get_dlc_size.
    destruct (Z.leb_spec (Z.of_nat (length values)) 8); [done | lia]. }
  split.
  { rewrite (on_data_whole_frame SF JL c st can_id values); try done.
    - cbn [snd]. rewrite forward_raw_sent. do 2 f_equal.
      change (nth 4 _ 0) with (Z.of_nat (length values)). f_equal.
      by apply can_id_of_be32.
    - destruct values; [simpl in Hlen; lia | done]. }
  split; [done |]. split; [done |]. split; [| done].
  exists values. cbn. rewrite Hg. split_and!; try done; lia.
Qed.

Lemma bridge_accepts_client_encoding_witness :
  exists wire f,
    encode_can_message 0xAC2 [1] = Ok wire /\
    sent (snd (on_data bus_ok no_json wire thermal_connection sample_bridge)) =
      sent sample_bridge ++ [f] /\
    id f = 0xAC2 /\ bv_data (data f) = Some [1] /\
    well_formed_frame f /\ get_dlc_size (dlc f) = Z.of_nat (length [1]).
Proof.
  apply (bridge_accepts_client_encoding bus_ok no_json thermal_connection
           sample_bridge 0xAC2 [1]); try reflexivity; [lia | | simpl; lia].
  repeat (constructor; [unfold is_byte; lia |]). constructor.
Defined.

(** ** Start-up *)

(** X24: [__init__] completes exactly when the six calls that create and
    start the participant, the lifecycle service and the controller all
    return 0; a failing [StartLifecycle] only prints a warning and a
    failing test-frame send only prints an error.  When it completes, the
    registry is empty and exactly the test frame (id 0x123, dlc 8, data
    1..8, flags 0) has been handed to the transport. *)
Theorem init_completes_iff (status : silkit_call -> Z)
    (SF : list CanFrame -> CanFrame -> Z) (heap : gmap nat StreamWriter) :
  ((exists st, snd (init status SF heap) = InitDone st) <->
   (forall c, c <> LifecycleService_StartLifecycle -> status c = 0)) /\
  (forall st, snd (init status SF heap) = InitDone st ->
     clients st = ∅ /\ writers st = heap /\ sent st = [test_frame] /\
     well_formed_frame test_frame).
Proof.
  unfold init, send_test_frame.
  destruct (Z.eqb_spec (status ParticipantConfiguration_FromString) 0) as [H0|H0];
  destruct (Z.eqb_spec (status Participant_Create) 0) as [H1|H1];
  destruct (Z.eqb_spec (status LifecycleService_Create) 0) as [H2|H2];
  destruct (Z.eqb_spec (status CanController_Create) 0) as [H3|H3];
  destruct (Z.eqb_spec (status CanController_AddFrameHandler) 0) as [H4|H4];
  destruct (Z.eqb_spec (status CanController_Start) 0) as [H5|H5];
  cbn [negb snd].
  all: split;
    [split;
      [intros [st Hst]; try discriminate Hst;
       intros c Hc; by destruct c
      |intros Hall; try (eexists; reflexivity); exfalso;
       first [apply H0 | apply H1 | apply H2 | apply H3 | apply H4 | apply H5];
       by apply Hall]
    |intros st Hst; try discriminate Hst].
  injection Hst as <-. cbn. split_and!; try done.
  exists [1; 2; 3; 4; 5; 6; 7; 8]. cbn. split_and!; try done; try lia.
  repeat (constructor; [unfold is_byte; lia |]). constructor.
Qed.

Lemma init_completes_iff_witness :
  (exists st, snd (init lifecycle_fails bus_failing sample_writers) = InitDone st) /\
  ~ (exists st, snd (init controller_fails bus_ok sample_writers) = InitDone st).
Proof.
  split.
  - destruct (init_completes_iff lifecycle_fails bus_failing sample_writers)
      as [[_ H] _].
    apply H. intros c Hc. by destruct c.
  - intros H.
    destruct (init_completes_iff controller_fails bus_ok sample_writers)
      as [[Hd _] _].
    specialize (Hd H CanController_Create ltac:(discriminate)). discriminate Hd.
Defined.

(** X25: when [__init__] raises, it names the first call, in program
    order, whose status is not 0, with that status; every earlier call
    returned 0, and the call is never [StartLifecycle]. *)
Theorem init_raises_at_first_failure (status : silkit_call -> Z)
    (SF : list CanFrame -> CanFrame -> Z) (heap : gmap nat StreamWriter)
    (c : silkit_call) (err : Z) :
  snd (init status SF heap) = InitRaised c err ->
  err = status c /\ err <> 0 /\ c <> LifecycleService_StartLifecycle /\
  (forall c', (call_index c' < call_index c)%nat -> status c' = 0).
Proof.
  unfold init, send_test_frame.
  destruct (Z.eqb_spec (status ParticipantConfiguration_FromString) 0) as [H0|H0];
    cbn [negb snd]; [| intros [= <- <-]; split_and!; try done;
                       intros c'; destruct c'; simpl; lia].
  destruct (Z.eqb_spec (status Participant_Create) 0) as [H1|H1];
    cbn [negb snd]; [| intros [= <- <-]; split_and!; try done;
                       intros c'; destruct c'; simpl; (done || lia)].
  destruct (Z.eqb_spec (status LifecycleService_Create) 0) as [H2|H2];
    cbn [negb snd]; [| intros [= <- <-]; split_and!; try done;
                       intros c'; destruct c'; simpl; (done || lia)].
  destruct (Z.eqb_spec (status CanController_Create) 0) as [H3|H3];
    cbn [negb snd]; [| intros [= <- <-]; split_and!; try done;
                       intros c'; destruct c'; simpl; (done || lia)].
  destruct (Z.eqb_spec (status CanController_AddFrameHandler) 0) as [H4|H4];
    cbn [negb snd]; [| intros [= <- <-]; split_and!; try done;
                       intros c'; destruct c'; simpl; (done || lia)].
  destruct (Z.eqb_spec (status CanController_Start) 0) as [H5|H5];
    cbn [negb snd]; [| intros [= <- <-]; split_and!; try done;
                       intros c'; destruct c'; simpl; (done || lia)].
  discriminate.
Qed.

Lemma init_raises_at_first_failure_witness :
  snd (init controller_fails bus_ok sample_writers) =
    InitRaised CanController_Create 4 /\
  4 = controller_fails CanController_Create.
Proof.
  split; [reflexivity |].
  apply (init_raises_at_first_failure controller_fails bus_ok sample_writers
           CanController_Create 4 eq_refl).
Defined.

(** ** A frame split at the header boundary *)

(** X26: a compact frame may arrive in two chunks if the split is exactly
    after the 5 header bytes: after the header alone the handler waits in
    the payload read with nothing forwarded, and when the whole payload
    arrives as the next chunk the frame is forwarded with the right id
    and payload and the handler waits for the next header. *)
Theorem header_then_payload
    (SF : list CanFrame -> CanFrame -> Z) (JL : list Z -> option json)
    (c : connection) (st : bridge) (can_id : Z) (payload : list Z) :
  is_thermal c = true -> c_pc c = LoopTop ->
  reader c = {| r_buffer := []; r_eof := false |} ->
  0 <= can_id < 2 ^ 32 -> payload <> [] ->
  let header := be32 can_id ++ [Z.of_nat (length payload)] in
  let first := on_data SF JL header c st in
  let second := on_data SF JL payload (fst first) (snd first) in
  first = (at_pc (AwaitData header) (reader c) c, st) /\
  c_pc (fst second) = LoopTop /\
  reader (fst second) = {| r_buffer := []; r_eof := false |} /\
  sent (snd second) =
    sent st ++ [raw_CanFrame can_id (Z.of_nat (length payload)) payload].
Proof.
  intros Hth Hpc Hrd Hid Hne header first second.
  destruct c as [w th rd p]. simpl in Hth, Hpc, Hrd. subst th p rd.
  assert (Hlen : length payload <> 0%nat) by (by destruct payload).
  assert (Hfirst : first =
    (at_pc (AwaitData header) {| r_buffer := []; r_eof := false |}
       {| c_writer := w; is_thermal := true;
          reader := {| r_buffer := []; r_eof := false |}; c_pc := LoopTop |}, st)).
  { subst first. unfold on_data, enough, deliver, feed_data.
    cbn [reader r_buffer r_eof app c_pc at_pc].
    change (3 + ?n)%nat with (S (S (S n))).
    subst header. unfold be32. cbn [app].
    erewrite run_resumed; [| apply step_header; done].
    rewrite run_suspended; [done |].
    eapply step_wait_payload; [reflexivity | simpl; lia | done | done]. }
  split; [exact Hfirst |].
  subst second. rewrite Hfirst. cbn [fst snd].
  unfold on_data, enough, deliver, feed_data.
  cbn [reader r_buffer r_eof app c_pc at_pc].
  change (3 + ?n)%nat with (S (S (S n))).
  erewrite run_resumed;
    [| eapply (step_payload _ _ _ _ header payload []);
       [reflexivity | reflexivity | done | cbn; by rewrite app_nil_r]].
  rewrite run_suspended by (by apply step_waiting).
  cbn [fst snd]. split_and!; try done.
  rewrite forward_raw_sent. do 2 f_equal.
  subst header. change (nth 4 _ 0) with (Z.of_nat (length payload)). f_equal.
  by apply can_id_of_be32.
Qed.

Lemma header_then_payload_witness :
  sent (snd (on_data bus_ok no_json [10; 20]
               (fst (on_data bus_ok no_json (be32 0x123 ++ [2])
                       thermal_connection sample_bridge))
               (snd (on_data bus_ok no_json (be32 0x123 ++ [2])
                       thermal_connection sample_bridge)))) =
    sent sample_bridge ++ [raw_CanFrame 0x123 2 [10; 20]].
Proof.
  apply (header_then_payload bus_ok no_json thermal_connection sample_bridge
           0x123 [10; 20] eq_refl eq_refl eq_refl ltac:(lia) ltac:(discriminate)).
Defined.
